(** * Autocomplete component: filtering and keyboard-navigation state machine

    Shallow embedding of the [Autocomplete] React component of this
    repository, in its two versions:
    - [src/src/components/autocomplete/index.tsx] (filter inside a bare
      [setTimeout] callback), called [IndexTsx] below;
    - [src/unnamed/part_002] ([filterDataAsync] returning a Promise),
      called [PromiseBased] below.

    Text is held in UTF-8; the string functions of JavaScript are modelled
    on the UTF-16 code units they work on, with Unicode case mappings.
    A React event handler is modelled as the list of effects it performs in
    program order (state setters, host callback, scheduled timers, thrown
    errors); React applies the queued state updates in order. *)

From Stdlib Require Import String Ascii List ZArith Bool Lia.
Import ListNotations.
Open Scope string_scope.

(** ** JavaScript values and errors *)

(** The value read by [item[filterField] as string]: the cast is unchecked,
    so the field may hold something other than a string at run time. *)
Inductive jsval : Type :=
| JStr (s : string)
| JNum (z : Z)
| JUndefined.

Inductive jserr : Type :=
| TypeError                 (* e.g. [undefined[k]], [(5).toLowerCase()] *)
| ErrorOf (e : jserr).      (* [Error(error)] in the [.catch] handler *)

Inductive js_result (A : Type) : Type :=
| Ok (a : A)
| Err (e : jserr).
Arguments Ok {A} a.
Arguments Err {A} e.

(** ** Strings

    A JavaScript string is a sequence of UTF-16 code units. The model's
    [string] holds the text in UTF-8; [units] gives the code units the
    JavaScript string functions work on. Code points and code units are
    integers ([Z]). *)

Open Scope Z_scope.

Definition is_scalar (c : Z) : bool :=
  (0 <=? c) && (c <=? 0x10FFFF) && negb ((0xD800 <=? c) && (c <=? 0xDFFF)).

Definition byte (b : ascii) : Z := Z.of_nat (nat_of_ascii b).

Definition is_cont (b : ascii) : bool := (0x80 <=? byte b) && (byte b <? 0xC0).

(** A decoded sequence that is not a Unicode scalar value (a surrogate or
    a value past U+10FFFF) becomes U+FFFD, like a malformed byte. *)
Definition scalar_or_fffd (c : Z) : Z := if is_scalar c then c else 0xFFFD.

Fixpoint utf8_decode (s : string) : list Z :=
  match s with
  | EmptyString => []
  | String b0 s1 =>
      let c0 := byte b0 in
      if c0 <? 0x80 then c0 :: utf8_decode s1
      else if (0xC0 <=? c0) && (c0 <? 0xE0) then
        match s1 with
        | String b1 s2 =>
            if is_cont b1
            then scalar_or_fffd ((c0 - 0xC0) * 0x40 + (byte b1 - 0x80))
                   :: utf8_decode s2
            else 0xFFFD :: utf8_decode s1
        | EmptyString => [0xFFFD]
        end
      else if (0xE0 <=? c0) && (c0 <? 0xF0) then
        match s1 with
        | String b1 (String b2 s3) =>
            if is_cont b1 && is_cont b2
            then scalar_or_fffd ((c0 - 0xE0) * 0x1000 + (byte b1 - 0x80) * 0x40
                                 + (byte b2 - 0x80)) :: utf8_decode s3
            else 0xFFFD :: utf8_decode s1
        | _ => 0xFFFD :: utf8_decode s1
        end
      else if (0xF0 <=? c0) && (c0 <? 0xF8) then
        match s1 with
        | String b1 (String b2 (String b3 s4)) =>
            if is_cont b1 && is_cont b2 && is_cont b3
            then scalar_or_fffd ((c0 - 0xF0) * 0x40000 + (byte b1 - 0x80) * 0x1000
                                 + (byte b2 - 0x80) * 0x40 + (byte b3 - 0x80))
                   :: utf8_decode s4
            else 0xFFFD :: utf8_decode s1
        | _ => 0xFFFD :: utf8_decode s1
        end
      else 0xFFFD :: utf8_decode s1
  end.

(** UTF-16: a code point past U+FFFF is a surrogate pair. *)
Definition utf16_of_cp (c : Z) : list Z :=
  if c <? 0x10000 then [c]
  else [0xD800 + (c - 0x10000) / 0x400; 0xDC00 + (c - 0x10000) mod 0x400].

Definition utf16_encode (cs : list Z) : list Z := flat_map utf16_of_cp cs.

(** The code units of a string. *)
Definition units (s : string) : list Z := utf16_encode (utf8_decode s).

(** [StringToCodePoints]: a high surrogate followed by a low one is one
    code point; a lone surrogate stands for itself. *)
Fixpoint cps_of_units (u : list Z) : list Z :=
  match u with
  | [] => []
  | a :: u' =>
      if (0xD800 <=? a) && (a <=? 0xDBFF) then
        match u' with
        | b :: u'' =>
            if (0xDC00 <=? b) && (b <=? 0xDFFF)
            then ((a - 0xD800) * 0x400 + (b - 0xDC00) + 0x10000) :: cps_of_units u''
            else a :: cps_of_units u'
        | [] => [a]
        end
      else a :: cps_of_units u'
  end.

(** *** Unicode case data (Unicode 14.0)

    A table entry [(first, last, step, delta)] maps every code point
    [c] with [first <= c <= last] and [c - first] a multiple of [step] to
    [c + delta]; a code point in no entry maps to itself. *)
Fixpoint lookup_delta (c : Z) (t : list (Z * Z * Z * Z)) : Z :=
  match t with
  | [] => 0
  | (lo, hi, st, d) :: t' =>
      if (lo <=? c) && (c <=? hi) && (Z.modulo (c - lo) st =? 0) then d
      else lookup_delta c t'
  end.

Definition in_ranges (c : Z) (t : list (Z * Z)) : bool :=
  existsb (fun '(lo, hi) => (lo <=? c) && (c <=? hi)) t.

(** Lowercase_Mapping of UnicodeData.txt for every code point whose
    lowercase is one code point. *)
Definition lower_table : list (Z * Z * Z * Z) :=
[
  (0x41, 0x5A, 1, 0x20); (0xC0, 0xD6, 1, 0x20); (0xD8, 0xDE, 1, 0x20); (0x100, 0x12E, 2, 0x1);
  (0x132, 0x136, 2, 0x1); (0x139, 0x147, 2, 0x1); (0x14A, 0x176, 2, 0x1); (0x178, 0x178, 1, (-0x79));
  (0x179, 0x17D, 2, 0x1); (0x181, 0x181, 1, 0xD2); (0x182, 0x184, 2, 0x1); (0x186, 0x186, 1, 0xCE);
  (0x187, 0x187, 1, 0x1); (0x189, 0x18A, 1, 0xCD); (0x18B, 0x18B, 1, 0x1); (0x18E, 0x18E, 1, 0x4F);
  (0x18F, 0x18F, 1, 0xCA); (0x190, 0x190, 1, 0xCB); (0x191, 0x191, 1, 0x1); (0x193, 0x193, 1, 0xCD);
  (0x194, 0x194, 1, 0xCF); (0x196, 0x196, 1, 0xD3); (0x197, 0x197, 1, 0xD1); (0x198, 0x198, 1, 0x1);
  (0x19C, 0x19C, 1, 0xD3); (0x19D, 0x19D, 1, 0xD5); (0x19F, 0x19F, 1, 0xD6); (0x1A0, 0x1A4, 2, 0x1);
  (0x1A6, 0x1A6, 1, 0xDA); (0x1A7, 0x1A7, 1, 0x1); (0x1A9, 0x1A9, 1, 0xDA); (0x1AC, 0x1AC, 1, 0x1);
  (0x1AE, 0x1AE, 1, 0xDA); (0x1AF, 0x1AF, 1, 0x1); (0x1B1, 0x1B2, 1, 0xD9); (0x1B3, 0x1B5, 2, 0x1);
  (0x1B7, 0x1B7, 1, 0xDB); (0x1B8, 0x1B8, 1, 0x1); (0x1BC, 0x1BC, 1, 0x1); (0x1C4, 0x1C4, 1, 0x2);
  (0x1C5, 0x1C5, 1, 0x1); (0x1C7, 0x1C7, 1, 0x2); (0x1C8, 0x1C8, 1, 0x1); (0x1CA, 0x1CA, 1, 0x2);
  (0x1CB, 0x1DB, 2, 0x1); (0x1DE, 0x1EE, 2, 0x1); (0x1F1, 0x1F1, 1, 0x2); (0x1F2, 0x1F4, 2, 0x1);
  (0x1F6, 0x1F6, 1, (-0x61)); (0x1F7, 0x1F7, 1, (-0x38)); (0x1F8, 0x21E, 2, 0x1); (0x220, 0x220, 1, (-0x82));
  (0x222, 0x232, 2, 0x1); (0x23A, 0x23A, 1, 0x2A2B); (0x23B, 0x23B, 1, 0x1); (0x23D, 0x23D, 1, (-0xA3));
  (0x23E, 0x23E, 1, 0x2A28); (0x241, 0x241, 1, 0x1); (0x243, 0x243, 1, (-0xC3)); (0x244, 0x244, 1, 0x45);
  (0x245, 0x245, 1, 0x47); (0x246, 0x24E, 2, 0x1); (0x370, 0x372, 2, 0x1); (0x376, 0x376, 1, 0x1);
  (0x37F, 0x37F, 1, 0x74); (0x386, 0x386, 1, 0x26); (0x388, 0x38A, 1, 0x25); (0x38C, 0x38C, 1, 0x40);
  (0x38E, 0x38F, 1, 0x3F); (0x391, 0x3A1, 1, 0x20); (0x3A3, 0x3AB, 1, 0x20); (0x3CF, 0x3CF, 1, 0x8);
  (0x3D8, 0x3EE, 2, 0x1); (0x3F4, 0x3F4, 1, (-0x3C)); (0x3F7, 0x3F7, 1, 0x1); (0x3F9, 0x3F9, 1, (-0x7));
  (0x3FA, 0x3FA, 1, 0x1); (0x3FD, 0x3FF, 1, (-0x82)); (0x400, 0x40F, 1, 0x50); (0x410, 0x42F, 1, 0x20);
  (0x460, 0x480, 2, 0x1); (0x48A, 0x4BE, 2, 0x1); (0x4C0, 0x4C0, 1, 0xF); (0x4C1, 0x4CD, 2, 0x1);
  (0x4D0, 0x52E, 2, 0x1); (0x531, 0x556, 1, 0x30); (0x10A0, 0x10C5, 1, 0x1C60); (0x10C7, 0x10C7, 1, 0x1C60);
  (0x10CD, 0x10CD, 1, 0x1C60); (0x13A0, 0x13EF, 1, 0x97D0); (0x13F0, 0x13F5, 1, 0x8); (0x1C90, 0x1CBA, 1, (-0xBC0));
  (0x1CBD, 0x1CBF, 1, (-0xBC0)); (0x1E00, 0x1E94, 2, 0x1); (0x1E9E, 0x1E9E, 1, (-0x1DBF)); (0x1EA0, 0x1EFE, 2, 0x1);
  (0x1F08, 0x1F0F, 1, (-0x8)); (0x1F18, 0x1F1D, 1, (-0x8)); (0x1F28, 0x1F2F, 1, (-0x8)); (0x1F38, 0x1F3F, 1, (-0x8));
  (0x1F48, 0x1F4D, 1, (-0x8)); (0x1F59, 0x1F5F, 2, (-0x8)); (0x1F68, 0x1F6F, 1, (-0x8)); (0x1F88, 0x1F8F, 1, (-0x8));
  (0x1F98, 0x1F9F, 1, (-0x8)); (0x1FA8, 0x1FAF, 1, (-0x8)); (0x1FB8, 0x1FB9, 1, (-0x8)); (0x1FBA, 0x1FBB, 1, (-0x4A));
  (0x1FBC, 0x1FBC, 1, (-0x9)); (0x1FC8, 0x1FCB, 1, (-0x56)); (0x1FCC, 0x1FCC, 1, (-0x9)); (0x1FD8, 0x1FD9, 1, (-0x8));
  (0x1FDA, 0x1FDB, 1, (-0x64)); (0x1FE8, 0x1FE9, 1, (-0x8)); (0x1FEA, 0x1FEB, 1, (-0x70)); (0x1FEC, 0x1FEC, 1, (-0x7));
  (0x1FF8, 0x1FF9, 1, (-0x80)); (0x1FFA, 0x1FFB, 1, (-0x7E)); (0x1FFC, 0x1FFC, 1, (-0x9)); (0x2126, 0x2126, 1, (-0x1D5D));
  (0x212A, 0x212A, 1, (-0x20BF)); (0x212B, 0x212B, 1, (-0x2046)); (0x2132, 0x2132, 1, 0x1C); (0x2160, 0x216F, 1, 0x10);
  (0x2183, 0x2183, 1, 0x1); (0x24B6, 0x24CF, 1, 0x1A); (0x2C00, 0x2C2F, 1, 0x30); (0x2C60, 0x2C60, 1, 0x1);
  (0x2C62, 0x2C62, 1, (-0x29F7)); (0x2C63, 0x2C63, 1, (-0xEE6)); (0x2C64, 0x2C64, 1, (-0x29E7)); (0x2C67, 0x2C6B, 2, 0x1);
  (0x2C6D, 0x2C6D, 1, (-0x2A1C)); (0x2C6E, 0x2C6E, 1, (-0x29FD)); (0x2C6F, 0x2C6F, 1, (-0x2A1F)); (0x2C70, 0x2C70, 1, (-0x2A1E));
  (0x2C72, 0x2C72, 1, 0x1); (0x2C75, 0x2C75, 1, 0x1); (0x2C7E, 0x2C7F, 1, (-0x2A3F)); (0x2C80, 0x2CE2, 2, 0x1);
  (0x2CEB, 0x2CED, 2, 0x1); (0x2CF2, 0x2CF2, 1, 0x1); (0xA640, 0xA66C, 2, 0x1); (0xA680, 0xA69A, 2, 0x1);
  (0xA722, 0xA72E, 2, 0x1); (0xA732, 0xA76E, 2, 0x1); (0xA779, 0xA77B, 2, 0x1); (0xA77D, 0xA77D, 1, (-0x8A04));
  (0xA77E, 0xA786, 2, 0x1); (0xA78B, 0xA78B, 1, 0x1); (0xA78D, 0xA78D, 1, (-0xA528)); (0xA790, 0xA792, 2, 0x1);
  (0xA796, 0xA7A8, 2, 0x1); (0xA7AA, 0xA7AA, 1, (-0xA544)); (0xA7AB, 0xA7AB, 1, (-0xA54F)); (0xA7AC, 0xA7AC, 1, (-0xA54B));
  (0xA7AD, 0xA7AD, 1, (-0xA541)); (0xA7AE, 0xA7AE, 1, (-0xA544)); (0xA7B0, 0xA7B0, 1, (-0xA512)); (0xA7B1, 0xA7B1, 1, (-0xA52A));
  (0xA7B2, 0xA7B2, 1, (-0xA515)); (0xA7B3, 0xA7B3, 1, 0x3A0); (0xA7B4, 0xA7C2, 2, 0x1); (0xA7C4, 0xA7C4, 1, (-0x30));
  (0xA7C5, 0xA7C5, 1, (-0xA543)); (0xA7C6, 0xA7C6, 1, (-0x8A38)); (0xA7C7, 0xA7C9, 2, 0x1); (0xA7D0, 0xA7D0, 1, 0x1);
  (0xA7D6, 0xA7D8, 2, 0x1); (0xA7F5, 0xA7F5, 1, 0x1); (0xFF21, 0xFF3A, 1, 0x20); (0x10400, 0x10427, 1, 0x28);
  (0x104B0, 0x104D3, 1, 0x28); (0x10570, 0x1057A, 1, 0x27); (0x1057C, 0x1058A, 1, 0x27); (0x1058C, 0x10592, 1, 0x27);
  (0x10594, 0x10595, 1, 0x27); (0x10C80, 0x10CB2, 1, 0x40); (0x118A0, 0x118BF, 1, 0x20); (0x16E40, 0x16E5F, 1, 0x20);
  (0x1E900, 0x1E921, 1, 0x22)
].

Definition lower_simple (c : Z) : Z := c + lookup_delta c lower_table.

(** The full lowercase mapping without context: U+0130 (capital I with dot
    above) is the only code point whose lowercase is two code points
    (SpecialCasing.txt). *)
Definition lower_full (c : Z) : list Z :=
  if c =? 0x130 then [0x69; 0x307] else [lower_simple c].

(** Case_Ignorable code points (DerivedCoreProperties.txt). *)
Definition case_ignorable_table : list (Z * Z) :=
[
  (0x27, 0x27); (0x2E, 0x2E); (0x3A, 0x3A); (0x5E, 0x5E); (0x60, 0x60); (0xA8, 0xA8);
  (0xAD, 0xAD); (0xAF, 0xAF); (0xB4, 0xB4); (0xB7, 0xB8); (0x2B0, 0x36F); (0x374, 0x375);
  (0x37A, 0x37A); (0x384, 0x385); (0x387, 0x387); (0x483, 0x489); (0x559, 0x559); (0x55F, 0x55F);
  (0x591, 0x5BD); (0x5BF, 0x5BF); (0x5C1, 0x5C2); (0x5C4, 0x5C5); (0x5C7, 0x5C7); (0x5F4, 0x5F4);
  (0x600, 0x605); (0x610, 0x61A); (0x61C, 0x61C); (0x640, 0x640); (0x64B, 0x65F); (0x670, 0x670);
  (0x6D6, 0x6DD); (0x6DF, 0x6E8); (0x6EA, 0x6ED); (0x70F, 0x70F); (0x711, 0x711); (0x730, 0x74A);
  (0x7A6, 0x7B0); (0x7EB, 0x7F5); (0x7FA, 0x7FA); (0x7FD, 0x7FD); (0x816, 0x82D); (0x859, 0x85B);
  (0x888, 0x888); (0x890, 0x891); (0x898, 0x89F); (0x8C9, 0x902); (0x93A, 0x93A); (0x93C, 0x93C);
  (0x941, 0x948); (0x94D, 0x94D); (0x951, 0x957); (0x962, 0x963); (0x971, 0x971); (0x981, 0x981);
  (0x9BC, 0x9BC); (0x9C1, 0x9C4); (0x9CD, 0x9CD); (0x9E2, 0x9E3); (0x9FE, 0x9FE); (0xA01, 0xA02);
  (0xA3C, 0xA3C); (0xA41, 0xA42); (0xA47, 0xA48); (0xA4B, 0xA4D); (0xA51, 0xA51); (0xA70, 0xA71);
  (0xA75, 0xA75); (0xA81, 0xA82); (0xABC, 0xABC); (0xAC1, 0xAC5); (0xAC7, 0xAC8); (0xACD, 0xACD);
  (0xAE2, 0xAE3); (0xAFA, 0xAFF); (0xB01, 0xB01); (0xB3C, 0xB3C); (0xB3F, 0xB3F); (0xB41, 0xB44);
  (0xB4D, 0xB4D); (0xB55, 0xB56); (0xB62, 0xB63); (0xB82, 0xB82); (0xBC0, 0xBC0); (0xBCD, 0xBCD);
  (0xC00, 0xC00); (0xC04, 0xC04); (0xC3C, 0xC3C); (0xC3E, 0xC40); (0xC46, 0xC48); (0xC4A, 0xC4D);
  (0xC55, 0xC56); (0xC62, 0xC63); (0xC81, 0xC81); (0xCBC, 0xCBC); (0xCBF, 0xCBF); (0xCC6, 0xCC6);
  (0xCCC, 0xCCD); (0xCE2, 0xCE3); (0xD00, 0xD01); (0xD3B, 0xD3C); (0xD41, 0xD44); (0xD4D, 0xD4D);
  (0xD62, 0xD63); (0xD81, 0xD81); (0xDCA, 0xDCA); (0xDD2, 0xDD4); (0xDD6, 0xDD6); (0xE31, 0xE31);
  (0xE34, 0xE3A); (0xE46, 0xE4E); (0xEB1, 0xEB1); (0xEB4, 0xEBC); (0xEC6, 0xEC6); (0xEC8, 0xECD);
  (0xF18, 0xF19); (0xF35, 0xF35); (0xF37, 0xF37); (0xF39, 0xF39); (0xF71, 0xF7E); (0xF80, 0xF84);
  (0xF86, 0xF87); (0xF8D, 0xF97); (0xF99, 0xFBC); (0xFC6, 0xFC6); (0x102D, 0x1030); (0x1032, 0x1037);
  (0x1039, 0x103A); (0x103D, 0x103E); (0x1058, 0x1059); (0x105E, 0x1060); (0x1071, 0x1074); (0x1082, 0x1082);
  (0x1085, 0x1086); (0x108D, 0x108D); (0x109D, 0x109D); (0x10FC, 0x10FC); (0x135D, 0x135F); (0x1712, 0x1714);
  (0x1732, 0x1733); (0x1752, 0x1753); (0x1772, 0x1773); (0x17B4, 0x17B5); (0x17B7, 0x17BD); (0x17C6, 0x17C6);
  (0x17C9, 0x17D3); (0x17D7, 0x17D7); (0x17DD, 0x17DD); (0x180B, 0x180F); (0x1843, 0x1843); (0x1885, 0x1886);
  (0x18A9, 0x18A9); (0x1920, 0x1922); (0x1927, 0x1928); (0x1932, 0x1932); (0x1939, 0x193B); (0x1A17, 0x1A18);
  (0x1A1B, 0x1A1B); (0x1A56, 0x1A56); (0x1A58, 0x1A5E); (0x1A60, 0x1A60); (0x1A62, 0x1A62); (0x1A65, 0x1A6C);
  (0x1A73, 0x1A7C); (0x1A7F, 0x1A7F); (0x1AA7, 0x1AA7); (0x1AB0, 0x1ACE); (0x1B00, 0x1B03); (0x1B34, 0x1B34);
  (0x1B36, 0x1B3A); (0x1B3C, 0x1B3C); (0x1B42, 0x1B42); (0x1B6B, 0x1B73); (0x1B80, 0x1B81); (0x1BA2, 0x1BA5);
  (0x1BA8, 0x1BA9); (0x1BAB, 0x1BAD); (0x1BE6, 0x1BE6); (0x1BE8, 0x1BE9); (0x1BED, 0x1BED); (0x1BEF, 0x1BF1);
  (0x1C2C, 0x1C33); (0x1C36, 0x1C37); (0x1C78, 0x1C7D); (0x1CD0, 0x1CD2); (0x1CD4, 0x1CE0); (0x1CE2, 0x1CE8);
  (0x1CED, 0x1CED); (0x1CF4, 0x1CF4); (0x1CF8, 0x1CF9); (0x1D2C, 0x1D6A); (0x1D78, 0x1D78); (0x1D9B, 0x1DFF);
  (0x1FBD, 0x1FBD); (0x1FBF, 0x1FC1); (0x1FCD, 0x1FCF); (0x1FDD, 0x1FDF); (0x1FED, 0x1FEF); (0x1FFD, 0x1FFE);
  (0x200B, 0x200F); (0x2018, 0x2019); (0x2024, 0x2024); (0x2027, 0x2027); (0x202A, 0x202E); (0x2060, 0x2064);
  (0x2066, 0x206F); (0x2071, 0x2071); (0x207F, 0x207F); (0x2090, 0x209C); (0x20D0, 0x20F0); (0x2C7C, 0x2C7D);
  (0x2CEF, 0x2CF1); (0x2D6F, 0x2D6F); (0x2D7F, 0x2D7F); (0x2DE0, 0x2DFF); (0x2E2F, 0x2E2F); (0x3005, 0x3005);
  (0x302A, 0x302D); (0x3031, 0x3035); (0x303B, 0x303B); (0x3099, 0x309E); (0x30FC, 0x30FE); (0xA015, 0xA015);
  (0xA4F8, 0xA4FD); (0xA60C, 0xA60C); (0xA66F, 0xA672); (0xA674, 0xA67D); (0xA67F, 0xA67F); (0xA69C, 0xA69F);
  (0xA6F0, 0xA6F1); (0xA700, 0xA721); (0xA770, 0xA770); (0xA788, 0xA78A); (0xA7F2, 0xA7F4); (0xA7F8, 0xA7F9);
  (0xA802, 0xA802); (0xA806, 0xA806); (0xA80B, 0xA80B); (0xA825, 0xA826); (0xA82C, 0xA82C); (0xA8C4, 0xA8C5);
  (0xA8E0, 0xA8F1); (0xA8FF, 0xA8FF); (0xA926, 0xA92D); (0xA947, 0xA951); (0xA980, 0xA982); (0xA9B3, 0xA9B3);
  (0xA9B6, 0xA9B9); (0xA9BC, 0xA9BD); (0xA9CF, 0xA9CF); (0xA9E5, 0xA9E6); (0xAA29, 0xAA2E); (0xAA31, 0xAA32);
  (0xAA35, 0xAA36); (0xAA43, 0xAA43); (0xAA4C, 0xAA4C); (0xAA70, 0xAA70); (0xAA7C, 0xAA7C); (0xAAB0, 0xAAB0);
  (0xAAB2, 0xAAB4); (0xAAB7, 0xAAB8); (0xAABE, 0xAABF); (0xAAC1, 0xAAC1); (0xAADD, 0xAADD); (0xAAEC, 0xAAED);
  (0xAAF3, 0xAAF4); (0xAAF6, 0xAAF6); (0xAB5B, 0xAB5F); (0xAB69, 0xAB6B); (0xABE5, 0xABE5); (0xABE8, 0xABE8);
  (0xABED, 0xABED); (0xFB1E, 0xFB1E); (0xFBB2, 0xFBC2); (0xFE00, 0xFE0F); (0xFE13, 0xFE13); (0xFE20, 0xFE2F);
  (0xFE52, 0xFE52); (0xFE55, 0xFE55); (0xFEFF, 0xFEFF); (0xFF07, 0xFF07); (0xFF0E, 0xFF0E); (0xFF1A, 0xFF1A);
  (0xFF3E, 0xFF3E); (0xFF40, 0xFF40); (0xFF70, 0xFF70); (0xFF9E, 0xFF9F); (0xFFE3, 0xFFE3); (0xFFF9, 0xFFFB);
  (0x101FD, 0x101FD); (0x102E0, 0x102E0); (0x10376, 0x1037A); (0x10780, 0x10785); (0x10787, 0x107B0); (0x107B2, 0x107BA);
  (0x10A01, 0x10A03); (0x10A05, 0x10A06); (0x10A0C, 0x10A0F); (0x10A38, 0x10A3A); (0x10A3F, 0x10A3F); (0x10AE5, 0x10AE6);
  (0x10D24, 0x10D27); (0x10EAB, 0x10EAC); (0x10F46, 0x10F50); (0x10F82, 0x10F85); (0x11001, 0x11001); (0x11038, 0x11046);
  (0x11070, 0x11070); (0x11073, 0x11074); (0x1107F, 0x11081); (0x110B3, 0x110B6); (0x110B9, 0x110BA); (0x110BD, 0x110BD);
  (0x110C2, 0x110C2); (0x110CD, 0x110CD); (0x11100, 0x11102); (0x11127, 0x1112B); (0x1112D, 0x11134); (0x11173, 0x11173);
  (0x11180, 0x11181); (0x111B6, 0x111BE); (0x111C9, 0x111CC); (0x111CF, 0x111CF); (0x1122F, 0x11231); (0x11234, 0x11234);
  (0x11236, 0x11237); (0x1123E, 0x1123E); (0x112DF, 0x112DF); (0x112E3, 0x112EA); (0x11300, 0x11301); (0x1133B, 0x1133C);
  (0x11340, 0x11340); (0x11366, 0x1136C); (0x11370, 0x11374); (0x11438, 0x1143F); (0x11442, 0x11444); (0x11446, 0x11446);
  (0x1145E, 0x1145E); (0x114B3, 0x114B8); (0x114BA, 0x114BA); (0x114BF, 0x114C0); (0x114C2, 0x114C3); (0x115B2, 0x115B5);
  (0x115BC, 0x115BD); (0x115BF, 0x115C0); (0x115DC, 0x115DD); (0x11633, 0x1163A); (0x1163D, 0x1163D); (0x1163F, 0x11640);
  (0x116AB, 0x116AB); (0x116AD, 0x116AD); (0x116B0, 0x116B5); (0x116B7, 0x116B7); (0x1171D, 0x1171F); (0x11722, 0x11725);
  (0x11727, 0x1172B); (0x1182F, 0x11837); (0x11839, 0x1183A); (0x1193B, 0x1193C); (0x1193E, 0x1193E); (0x11943, 0x11943);
  (0x119D4, 0x119D7); (0x119DA, 0x119DB); (0x119E0, 0x119E0); (0x11A01, 0x11A0A); (0x11A33, 0x11A38); (0x11A3B, 0x11A3E);
  (0x11A47, 0x11A47); (0x11A51, 0x11A56); (0x11A59, 0x11A5B); (0x11A8A, 0x11A96); (0x11A98, 0x11A99); (0x11C30, 0x11C36);
  (0x11C38, 0x11C3D); (0x11C3F, 0x11C3F); (0x11C92, 0x11CA7); (0x11CAA, 0x11CB0); (0x11CB2, 0x11CB3); (0x11CB5, 0x11CB6);
  (0x11D31, 0x11D36); (0x11D3A, 0x11D3A); (0x11D3C, 0x11D3D); (0x11D3F, 0x11D45); (0x11D47, 0x11D47); (0x11D90, 0x11D91);
  (0x11D95, 0x11D95); (0x11D97, 0x11D97); (0x11EF3, 0x11EF4); (0x13430, 0x13438); (0x16AF0, 0x16AF4); (0x16B30, 0x16B36);
  (0x16B40, 0x16B43); (0x16F4F, 0x16F4F); (0x16F8F, 0x16F9F); (0x16FE0, 0x16FE1); (0x16FE3, 0x16FE4); (0x1AFF0, 0x1AFF3);
  (0x1AFF5, 0x1AFFB); (0x1AFFD, 0x1AFFE); (0x1BC9D, 0x1BC9E); (0x1BCA0, 0x1BCA3); (0x1CF00, 0x1CF2D); (0x1CF30, 0x1CF46);
  (0x1D167, 0x1D169); (0x1D173, 0x1D182); (0x1D185, 0x1D18B); (0x1D1AA, 0x1D1AD); (0x1D242, 0x1D244); (0x1DA00, 0x1DA36);
  (0x1DA3B, 0x1DA6C); (0x1DA75, 0x1DA75); (0x1DA84, 0x1DA84); (0x1DA9B, 0x1DA9F); (0x1DAA1, 0x1DAAF); (0x1E000, 0x1E006);
  (0x1E008, 0x1E018); (0x1E01B, 0x1E021); (0x1E023, 0x1E024); (0x1E026, 0x1E02A); (0x1E130, 0x1E13D); (0x1E2AE, 0x1E2AE);
  (0x1E2EC, 0x1E2EF); (0x1E8D0, 0x1E8D6); (0x1E944, 0x1E94B); (0x1F3FB, 0x1F3FF); (0xE0001, 0xE0001); (0xE0020, 0xE007F);
  (0xE0100, 0xE01EF)
].

(** Cased code points that are not Case_Ignorable. A code point with both
    properties is skipped as case-ignorable by [scan_cased]. *)
Definition cased_table : list (Z * Z) :=
[
  (0x41, 0x5A); (0x61, 0x7A); (0xAA, 0xAA); (0xB5, 0xB5); (0xBA, 0xBA); (0xC0, 0xD6);
  (0xD8, 0xF6); (0xF8, 0x1BA); (0x1BC, 0x1BF); (0x1C4, 0x293); (0x295, 0x2AF); (0x370, 0x373);
  (0x376, 0x377); (0x37B, 0x37D); (0x37F, 0x37F); (0x386, 0x386); (0x388, 0x38A); (0x38C, 0x38C);
  (0x38E, 0x3A1); (0x3A3, 0x3F5); (0x3F7, 0x481); (0x48A, 0x52F); (0x531, 0x556); (0x560, 0x588);
  (0x10A0, 0x10C5); (0x10C7, 0x10C7); (0x10CD, 0x10CD); (0x10D0, 0x10FA); (0x10FD, 0x10FF); (0x13A0, 0x13F5);
  (0x13F8, 0x13FD); (0x1C80, 0x1C88); (0x1C90, 0x1CBA); (0x1CBD, 0x1CBF); (0x1D00, 0x1D2B); (0x1D6B, 0x1D77);
  (0x1D79, 0x1D9A); (0x1E00, 0x1F15); (0x1F18, 0x1F1D); (0x1F20, 0x1F45); (0x1F48, 0x1F4D); (0x1F50, 0x1F57);
  (0x1F59, 0x1F59); (0x1F5B, 0x1F5B); (0x1F5D, 0x1F5D); (0x1F5F, 0x1F7D); (0x1F80, 0x1FB4); (0x1FB6, 0x1FBC);
  (0x1FBE, 0x1FBE); (0x1FC2, 0x1FC4); (0x1FC6, 0x1FCC); (0x1FD0, 0x1FD3); (0x1FD6, 0x1FDB); (0x1FE0, 0x1FEC);
  (0x1FF2, 0x1FF4); (0x1FF6, 0x1FFC); (0x2102, 0x2102); (0x2107, 0x2107); (0x210A, 0x2113); (0x2115, 0x2115);
  (0x2119, 0x211D); (0x2124, 0x2124); (0x2126, 0x2126); (0x2128, 0x2128); (0x212A, 0x212D); (0x212F, 0x2134);
  (0x2139, 0x2139); (0x213C, 0x213F); (0x2145, 0x2149); (0x214E, 0x214E); (0x2160, 0x217F); (0x2183, 0x2184);
  (0x24B6, 0x24E9); (0x2C00, 0x2C7B); (0x2C7E, 0x2CE4); (0x2CEB, 0x2CEE); (0x2CF2, 0x2CF3); (0x2D00, 0x2D25);
  (0x2D27, 0x2D27); (0x2D2D, 0x2D2D); (0xA640, 0xA66D); (0xA680, 0xA69B); (0xA722, 0xA76F); (0xA771, 0xA787);
  (0xA78B, 0xA78E); (0xA790, 0xA7CA); (0xA7D0, 0xA7D1); (0xA7D3, 0xA7D3); (0xA7D5, 0xA7D9); (0xA7F5, 0xA7F6);
  (0xA7FA, 0xA7FA); (0xAB30, 0xAB5A); (0xAB60, 0xAB68); (0xAB70, 0xABBF); (0xFB00, 0xFB06); (0xFB13, 0xFB17);
  (0xFF21, 0xFF3A); (0xFF41, 0xFF5A); (0x10400, 0x1044F); (0x104B0, 0x104D3); (0x104D8, 0x104FB); (0x10570, 0x1057A);
  (0x1057C, 0x1058A); (0x1058C, 0x10592); (0x10594, 0x10595); (0x10597, 0x105A1); (0x105A3, 0x105B1); (0x105B3, 0x105B9);
  (0x105BB, 0x105BC); (0x10C80, 0x10CB2); (0x10CC0, 0x10CF2); (0x118A0, 0x118DF); (0x16E40, 0x16E7F); (0x1D400, 0x1D454);
  (0x1D456, 0x1D49C); (0x1D49E, 0x1D49F); (0x1D4A2, 0x1D4A2); (0x1D4A5, 0x1D4A6); (0x1D4A9, 0x1D4AC); (0x1D4AE, 0x1D4B9);
  (0x1D4BB, 0x1D4BB); (0x1D4BD, 0x1D4C3); (0x1D4C5, 0x1D505); (0x1D507, 0x1D50A); (0x1D50D, 0x1D514); (0x1D516, 0x1D51C);
  (0x1D51E, 0x1D539); (0x1D53B, 0x1D53E); (0x1D540, 0x1D544); (0x1D546, 0x1D546); (0x1D54A, 0x1D550); (0x1D552, 0x1D6A5);
  (0x1D6A8, 0x1D6C0); (0x1D6C2, 0x1D6DA); (0x1D6DC, 0x1D6FA); (0x1D6FC, 0x1D714); (0x1D716, 0x1D734); (0x1D736, 0x1D74E);
  (0x1D750, 0x1D76E); (0x1D770, 0x1D788); (0x1D78A, 0x1D7A8); (0x1D7AA, 0x1D7C2); (0x1D7C4, 0x1D7CB); (0x1DF00, 0x1DF09);
  (0x1DF0B, 0x1DF1E); (0x1E900, 0x1E943); (0x1F130, 0x1F149); (0x1F150, 0x1F169); (0x1F170, 0x1F189)
].

Definition case_ignorable (c : Z) : bool := in_ranges c case_ignorable_table.
Definition cased (c : Z) : bool := in_ranges c cased_table.

(** Skipping case-ignorable code points, the next one is cased (the
    context scan of ICU, which JavaScript engines use). *)
Fixpoint scan_cased (l : list Z) : bool :=
  match l with
  | [] => false
  | c :: l' => if case_ignorable c then scan_cased l' else cased c
  end.

(** Default lowercasing of a code point sequence. [before] holds the code
    points already read, nearest first. Capital sigma U+03A3 becomes final
    sigma U+03C2 when preceded by a cased letter and not followed by one
    (the Final_Sigma condition of SpecialCasing.txt), else U+03C3. *)
Fixpoint lower_cps (before : list Z) (s : list Z) : list Z :=
  match s with
  | [] => []
  | c :: s' =>
      ((if c =? 0x3A3 then
          if scan_cased before && negb (scan_cased s') then [0x3C2] else [0x3C3]
        else lower_full c) ++ lower_cps (c :: before) s')%list
  end.

(** [String.prototype.toLowerCase] on code units. *)
Definition toLowerCase (u : list Z) : list Z :=
  utf16_encode (lower_cps [] (cps_of_units u)).

(** Equality of code-unit sequences, and [t] as a prefix of [s]. *)
Fixpoint prefix_units (t s : list Z) : bool :=
  match t, s with
  | [], _ => true
  | _ :: _, [] => false
  | a :: t', b :: s' => (a =? b) && prefix_units t' s'
  end.

(** [s.includes(t)]: [t] is a prefix of some suffix of [s]. *)
Fixpoint includes (s t : list Z) : bool :=
  prefix_units t s ||
  match s with
  | [] => false
  | _ :: s' => includes s' t
  end.

Close Scope Z_scope.

(** [v.toLowerCase()] on the value of the filter field. *)
Definition js_toLowerCase (v : jsval) : js_result (list Z) :=
  match v with
  | JStr s => Ok (toLowerCase (units s))
  | _ => Err TypeError
  end.

(** [Array.prototype.filter] with a callback that may throw: items are
    visited in order and the first exception aborts the whole call. *)
Fixpoint js_filter {T : Type} (p : T -> js_result bool) (l : list T)
  : js_result (list T) :=
  match l with
  | [] => Ok []
  | x :: l' =>
      match p x with
      | Err e => Err e
      | Ok b =>
          match js_filter p l' with
          | Err e => Err e
          | Ok r => Ok (if b then x :: r else r)
          end
      end
  end.

Section Filter.
Variable T : Type.
(** [filterField] / [filterKey]: reads the field of an item. *)
Variable filterField : T -> jsval.

(** The filter computed both by the [setTimeout] callback of
    [handleOnChange] (index.tsx, lines 67-70) and by [filterDataAsync]
    (part_002, lines 69-72):
    [data.filter(item => (item[filterField] as string).toLowerCase()
                          .includes(input.toLowerCase()))]. *)
Definition filterData (data : list T) (input : string) : js_result (list T) :=
  js_filter
    (fun item =>
       match js_toLowerCase (filterField item) with
       | Err e => Err e
       | Ok fieldValue => Ok (includes fieldValue (toLowerCase (units input)))
       end)
    data.

End Filter.
Arguments filterData {T} filterField data input.

(** ** The specification's reading of "case-insensitive substring" *)

(** Two code points are equal up to case when their lowercase forms are. *)
Definition ci_eq (a b : Z) : bool := Z.eqb (lower_simple a) (lower_simple b).

(** [q] matches the beginning of [s], code point by code point, up to case. *)
Fixpoint ci_prefix (q s : list Z) : bool :=
  match q, s with
  | [], _ => true
  | _ :: _, [] => false
  | a :: q', b :: s' => ci_eq a b && ci_prefix q' s'
  end.

Fixpoint suffixes {A : Type} (s : list A) : list (list A) :=
  s :: match s with
       | [] => []
       | _ :: s' => suffixes s'
       end.

Definition ci_contains (s q : string) : bool :=
  existsb (ci_prefix (utf8_decode q)) (suffixes (utf8_decode s)).

(** Spec-side filter (section 4.2): the items of [L], in order, whose field
    value contains [q] as a case-insensitive substring. *)
Definition spec_filter {T : Type} (fs : T -> string) (L : list T) (q : string)
  : list T :=
  List.filter (fun t => ci_contains (fs t) q) L.

(** Text whose lowercasing goes code point by code point, one code point
    to one: it holds no capital sigma U+03A3 and no U+0130. *)
Definition context_free (s : string) : bool :=
  forallb (fun c => negb (Z.eqb c 0x3A3 || Z.eqb c 0x130)) (utf8_decode s).


(** ** Component state and events *)

(** The two versions of the component. *)
Inductive variant : Type := IndexTsx | PromiseBased.

(** The [useState] hooks of the component, plus the queue of pending
    1000 ms timers (each holds the [input] its closure captured). All timers
    have the same delay, so they fire in the order they were scheduled. *)
Record state (T : Type) : Type := mkState {
  value : jsval;                 (* [value] / queryText *)
  showSuggestions : bool;        (* isSuggestionsVisible *)
  suggestions : list T;
  activeSuggestion : Z;          (* activeIndex *)
  pending : list string          (* inputs of scheduled filter timers *)
}.
Arguments mkState {T}.
Arguments value {T}.
Arguments showSuggestions {T}.
Arguments suggestions {T}.
Arguments activeSuggestion {T}.
Arguments pending {T}.

(** Effects of a handler, in program order. *)
Inductive effect (T : Type) : Type :=
| SetValue (v : jsval)
| SetShowSuggestions (b : bool)
| SetSuggestions (l : list T)
| SetActiveSuggestion (f : Z -> Z)   (* value or functional updater *)
| SelectItem (item : T)              (* [setSelectedItem && setSelectedItem(item)] *)
| ScheduleFilter (input : string)    (* [setTimeout(..., 1000)] *)
| Throw (e : jserr)                  (* exception escaping the callback *)
| RejectUnhandled (e : jserr).       (* rejected promise nobody handles *)
Arguments SetValue {T}.
Arguments SetShowSuggestions {T}.
Arguments SetSuggestions {T}.
Arguments SetActiveSuggestion {T}.
Arguments SelectItem {T}.
Arguments ScheduleFilter {T}.
Arguments Throw {T}.
Arguments RejectUnhandled {T}.

(** What the outside world observes. React error boundaries only catch
    errors thrown while rendering; an exception escaping a timer callback is
    an uncaught error of the page, and a rejected promise with no handler is
    an unhandled rejection. *)
Inductive report (T : Type) : Type :=
| Called (item : T)                  (* host callback [setSelectedItem] *)
| UncaughtError (e : jserr)
| UnhandledRejection (e : jserr)
| ErrorBoundary (e : jserr).         (* error delivered to the host's boundary *)
Arguments Called {T}.
Arguments UncaughtError {T}.
Arguments UnhandledRejection {T}.
Arguments ErrorBoundary {T}.

Inductive event : Type :=
| Change (input : string)     (* [onChange] of the input box *)
| KeyDown (key : string)      (* [onKeyDown], [e.key] *)
| ClickItem (i : nat)         (* click on the i-th rendered suggestion *)
| HoverItem (i : nat)         (* [onMouseEnter] on the i-th rendered suggestion *)
| MouseDownOutside            (* [useOnClickOutside] listener *)
| TimerFires.                 (* the oldest pending filter timer elapses *)

Definition jsval_strict_eq (a b : jsval) : bool :=
  match a, b with
  | JStr x, JStr y => String.eqb x y
  | JNum x, JNum y => Z.eqb x y
  | JUndefined, JUndefined => true
  | _, _ => false
  end.

(** [l[i]] on an array: [undefined] (here [None]) out of range. *)
Definition js_index {T : Type} (l : list T) (i : Z) : option T :=
  if (0 <=? i)%Z then nth_error l (Z.to_nat i) else None.

Section Component.
Variable T : Type.
Variable filterField : T -> jsval.
(** Reference equality of items, used by [suggestions.indexOf]. *)
Variable same_item : T -> T -> bool.
(** The [data] prop. *)
Variable data : list T.
(** Whether the optional prop [setSelectedItem] is provided. *)
Variable has_setSelectedItem : bool.

Definition initial : state T := mkState (JStr "") false [] 0%Z [].

Fixpoint js_indexOf_from (l : list T) (x : T) (n : Z) : Z :=
  match l with
  | [] => (-1)%Z
  | y :: l' => if same_item y x then n else js_indexOf_from l' x (n + 1)
  end.
Definition js_indexOf (l : list T) (x : T) : Z := js_indexOf_from l x 0.

(** [handleOnChange] (index.tsx 58-74; part_002 83-99). In part_002 the
    test is [!input], which for a string is [input === ""]. *)
Definition handleOnChange (input : string) : list (effect T) :=
  ([SetValue (JStr input); SetActiveSuggestion (fun _ => 0%Z)] ++
  (if String.eqb input "" then [SetShowSuggestions false]
   else [ScheduleFilter input]))%list.

(** The body run when a filter timer for [input] elapses.
    index.tsx 66-73: filter, then [setShowSuggestions(true)],
    [setSuggestions(filtered)]; an exception escapes the timer callback.
    part_002 65-79 and 91-98: the promise is rejected, the [.catch] handler
    runs [throw Error(error)], and the promise it returns is dropped. *)
Definition timerCallback (v : variant) (input : string) : list (effect T) :=
  match filterData filterField data input with
  | Ok filtered => [SetShowSuggestions true; SetSuggestions filtered]
  | Err e =>
      match v with
      | IndexTsx => [Throw e]
      | PromiseBased => [RejectUnhandled (ErrorOf e)]
      end
  end.

(** [onSetSuggestion(item)]. *)
Definition onSetSuggestion (item : T) : list (effect T) :=
  [SetShowSuggestions false; SetValue (filterField item); SelectItem item].

(** [setValue(suggestions[activeSuggestion][filterField]);
     setSelectedItem && setSelectedItem(suggestions[activeSuggestion])]:
    reading a field of [undefined] throws a TypeError. *)
Definition commitActive (st : state T) : list (effect T) :=
  match js_index (suggestions st) (activeSuggestion st) with
  | Some item => [SetValue (filterField item); SelectItem item]
  | None => [Throw TypeError]
  end.

(** [onKeyDown] (index.tsx 77-117; part_002 102-142). The scrolling of the
    list container is a DOM effect and is not part of the state. *)
Definition onKeyDown (v : variant) (st : state T) (key : string)
  : list (effect T) :=
  let a := activeSuggestion st in
  let len := Z.of_nat (length (suggestions st)) in
  if String.eqb key "ArrowUp" && negb (Z.eqb a 0) then
    [SetActiveSuggestion (fun prev => prev - 1)%Z]
  else if String.eqb key "ArrowDown" && (a <? len - 1)%Z then
    [SetActiveSuggestion (fun prev => prev + 1)%Z]
  else if String.eqb key "Escape" then
    [SetShowSuggestions false; SetValue (JStr "")]
  else if String.eqb key "Enter" &&
          match v with
          | IndexTsx => true
          | PromiseBased =>
              negb (jsval_strict_eq (value st) (JStr "")) && (0 <? len)%Z
          end then
    SetShowSuggestions false :: commitActive st
  else [].

(** Applying a handler's effects. *)
Fixpoint run (st : state T) (effs : list (effect T)) : state T * list (report T) :=
  match effs with
  | [] => (st, [])
  | e :: effs' =>
      let '(st1, out1) :=
        match e with
        | SetValue x =>
            (mkState x (showSuggestions st) (suggestions st)
               (activeSuggestion st) (pending st), [])
        | SetShowSuggestions b =>
            (mkState (value st) b (suggestions st)
               (activeSuggestion st) (pending st), [])
        | SetSuggestions l =>
            (mkState (value st) (showSuggestions st) l
               (activeSuggestion st) (pending st), [])
        | SetActiveSuggestion f =>
            (mkState (value st) (showSuggestions st) (suggestions st)
               (f (activeSuggestion st)) (pending st), [])
        | SelectItem item =>
            (st, if has_setSelectedItem then [Called item] else [])
        | ScheduleFilter q =>
            (mkState (value st) (showSuggestions st) (suggestions st)
               (activeSuggestion st) ((pending st ++ [q])%list), [])
        | Throw err => (st, [UncaughtError err])
        | RejectUnhandled err => (st, [UnhandledRejection err])
        end in
      let '(st2, out2) := run st1 effs' in
      (st2, (out1 ++ out2)%list)
  end.

(** One event. [None]: the event cannot happen in this state (no rendered
    item at that position, or no pending timer). The suggestion items are
    rendered only when [showSuggestions] holds. *)
Definition step (v : variant) (st : state T) (ev : event)
  : option (state T * list (report T)) :=
  match ev with
  | Change input => Some (run st (handleOnChange input))
  | KeyDown key => Some (run st (onKeyDown v st key))
  | ClickItem i =>
      if showSuggestions st then
        match nth_error (suggestions st) i with
        | Some item => Some (run st (onSetSuggestion item))
        | None => None
        end
      else None
  | HoverItem i =>
      if showSuggestions st then
        match nth_error (suggestions st) i with
        | Some item =>
            Some (run st [SetActiveSuggestion
                            (fun _ => js_indexOf (suggestions st) item)])
        | None => None
        end
      else None
  | MouseDownOutside => Some (run st [SetShowSuggestions false])
  | TimerFires =>
      match pending st with
      | [] => None
      | q :: rest =>
          Some (run (mkState (value st) (showSuggestions st) (suggestions st)
                       (activeSuggestion st) rest)
                    (timerCallback v q))
      end
  end.

(** A sequence of events from a state; [None] if one cannot happen. *)
Fixpoint run_events (v : variant) (st : state T) (evs : list event)
  : option (state T * list (report T)) :=
  match evs with
  | [] => Some (st, [])
  | ev :: evs' =>
      match step v st ev with
      | None => None
      | Some (st1, out1) =>
          match run_events v st1 evs' with
          | None => None
          | Some (st2, out2) => Some (st2, (out1 ++ out2)%list)
          end
      end
  end.

Inductive reachable (v : variant) : state T -> Prop :=
| reach_init : reachable v initial
| reach_step st ev st' out :
    reachable v st -> step v st ev = Some (st', out) -> reachable v st'.

End Component.

(** ** The highlighter [HighlightSearchValue]

    index.tsx 25-40 and part_002 25-40:
    [const regex = new RegExp(searchValue, "gi");
     if (regex.test(value))
       return <div dangerouslySetInnerHTML=
         {{ __html: value.replace(regex, `<span ...>${searchValue}</span>`) }} />;
     return <div>{value}</div>;]

    The query is compiled without escaping and without the [u] flag, so
    the pattern works on code units. The model covers patterns built from
    ordinary characters and [.]; a query holding another regular
    expression metacharacter is outside it ([None]). *)

Inductive atom : Type :=
| Lit (c : Z)          (* an ordinary code unit, compared ignoring case *)
| AnyChar.             (* [.]: any code unit but a line terminator *)

Definition is_regex_meta (c : Z) : bool :=
  existsb (Z.eqb c) (map byte (list_ascii_of_string "^$\.*+?()[]{}|")).

(** [new RegExp(q, "gi")] on the modelled fragment, over the code units of
    the query. *)
Fixpoint compile (q : list Z) : option (list atom) :=
  match q with
  | [] => Some []
  | c :: q' =>
      match compile q' with
      | None => None
      | Some r =>
          if Z.eqb c (byte ".") then Some (AnyChar :: r)
          else if is_regex_meta c then None
          else Some (Lit c :: r)
      end
  end.

(** [Canonicalize] of a case-insensitive, non-Unicode pattern: the code
    unit's uppercase (full mapping of Unicode 14.0) when that is a single
    code unit and does not map a non-ASCII unit into ASCII; otherwise the
    unit itself. Given as a table in the format of [lower_table]. *)
Open Scope Z_scope.

Definition canonicalize_table : list (Z * Z * Z * Z) :=
[
  (0x61, 0x7A, 1, (-0x20)); (0xB5, 0xB5, 1, 0x2E7); (0xE0, 0xF6, 1, (-0x20)); (0xF8, 0xFE, 1, (-0x20));
  (0xFF, 0xFF, 1, 0x79); (0x101, 0x12F, 2, (-0x1)); (0x133, 0x137, 2, (-0x1)); (0x13A, 0x148, 2, (-0x1));
  (0x14B, 0x177, 2, (-0x1)); (0x17A, 0x17E, 2, (-0x1)); (0x180, 0x180, 1, 0xC3); (0x183, 0x185, 2, (-0x1));
  (0x188, 0x188, 1, (-0x1)); (0x18C, 0x18C, 1, (-0x1)); (0x192, 0x192, 1, (-0x1)); (0x195, 0x195, 1, 0x61);
  (0x199, 0x199, 1, (-0x1)); (0x19A, 0x19A, 1, 0xA3); (0x19E, 0x19E, 1, 0x82); (0x1A1, 0x1A5, 2, (-0x1));
  (0x1A8, 0x1A8, 1, (-0x1)); (0x1AD, 0x1AD, 1, (-0x1)); (0x1B0, 0x1B0, 1, (-0x1)); (0x1B4, 0x1B6, 2, (-0x1));
  (0x1B9, 0x1B9, 1, (-0x1)); (0x1BD, 0x1BD, 1, (-0x1)); (0x1BF, 0x1BF, 1, 0x38); (0x1C5, 0x1C5, 1, (-0x1));
  (0x1C6, 0x1C6, 1, (-0x2)); (0x1C8, 0x1C8, 1, (-0x1)); (0x1C9, 0x1C9, 1, (-0x2)); (0x1CB, 0x1CB, 1, (-0x1));
  (0x1CC, 0x1CC, 1, (-0x2)); (0x1CE, 0x1DC, 2, (-0x1)); (0x1DD, 0x1DD, 1, (-0x4F)); (0x1DF, 0x1EF, 2, (-0x1));
  (0x1F2, 0x1F2, 1, (-0x1)); (0x1F3, 0x1F3, 1, (-0x2)); (0x1F5, 0x1F5, 1, (-0x1)); (0x1F9, 0x21F, 2, (-0x1));
  (0x223, 0x233, 2, (-0x1)); (0x23C, 0x23C, 1, (-0x1)); (0x23F, 0x240, 1, 0x2A3F); (0x242, 0x242, 1, (-0x1));
  (0x247, 0x24F, 2, (-0x1)); (0x250, 0x250, 1, 0x2A1F); (0x251, 0x251, 1, 0x2A1C); (0x252, 0x252, 1, 0x2A1E);
  (0x253, 0x253, 1, (-0xD2)); (0x254, 0x254, 1, (-0xCE)); (0x256, 0x257, 1, (-0xCD)); (0x259, 0x259, 1, (-0xCA));
  (0x25B, 0x25B, 1, (-0xCB)); (0x25C, 0x25C, 1, 0xA54F); (0x260, 0x260, 1, (-0xCD)); (0x261, 0x261, 1, 0xA54B);
  (0x263, 0x263, 1, (-0xCF)); (0x265, 0x265, 1, 0xA528); (0x266, 0x266, 1, 0xA544); (0x268, 0x268, 1, (-0xD1));
  (0x269, 0x269, 1, (-0xD3)); (0x26A, 0x26A, 1, 0xA544); (0x26B, 0x26B, 1, 0x29F7); (0x26C, 0x26C, 1, 0xA541);
  (0x26F, 0x26F, 1, (-0xD3)); (0x271, 0x271, 1, 0x29FD); (0x272, 0x272, 1, (-0xD5)); (0x275, 0x275, 1, (-0xD6));
  (0x27D, 0x27D, 1, 0x29E7); (0x280, 0x280, 1, (-0xDA)); (0x282, 0x282, 1, 0xA543); (0x283, 0x283, 1, (-0xDA));
  (0x287, 0x287, 1, 0xA52A); (0x288, 0x288, 1, (-0xDA)); (0x289, 0x289, 1, (-0x45)); (0x28A, 0x28B, 1, (-0xD9));
  (0x28C, 0x28C, 1, (-0x47)); (0x292, 0x292, 1, (-0xDB)); (0x29D, 0x29D, 1, 0xA515); (0x29E, 0x29E, 1, 0xA512);
  (0x345, 0x345, 1, 0x54); (0x371, 0x373, 2, (-0x1)); (0x377, 0x377, 1, (-0x1)); (0x37B, 0x37D, 1, 0x82);
  (0x3AC, 0x3AC, 1, (-0x26)); (0x3AD, 0x3AF, 1, (-0x25)); (0x3B1, 0x3C1, 1, (-0x20)); (0x3C2, 0x3C2, 1, (-0x1F));
  (0x3C3, 0x3CB, 1, (-0x20)); (0x3CC, 0x3CC, 1, (-0x40)); (0x3CD, 0x3CE, 1, (-0x3F)); (0x3D0, 0x3D0, 1, (-0x3E));
  (0x3D1, 0x3D1, 1, (-0x39)); (0x3D5, 0x3D5, 1, (-0x2F)); (0x3D6, 0x3D6, 1, (-0x36)); (0x3D7, 0x3D7, 1, (-0x8));
  (0x3D9, 0x3EF, 2, (-0x1)); (0x3F0, 0x3F0, 1, (-0x56)); (0x3F1, 0x3F1, 1, (-0x50)); (0x3F2, 0x3F2, 1, 0x7);
  (0x3F3, 0x3F3, 1, (-0x74)); (0x3F5, 0x3F5, 1, (-0x60)); (0x3F8, 0x3F8, 1, (-0x1)); (0x3FB, 0x3FB, 1, (-0x1));
  (0x430, 0x44F, 1, (-0x20)); (0x450, 0x45F, 1, (-0x50)); (0x461, 0x481, 2, (-0x1)); (0x48B, 0x4BF, 2, (-0x1));
  (0x4C2, 0x4CE, 2, (-0x1)); (0x4CF, 0x4CF, 1, (-0xF)); (0x4D1, 0x52F, 2, (-0x1)); (0x561, 0x586, 1, (-0x30));
  (0x10D0, 0x10FA, 1, 0xBC0); (0x10FD, 0x10FF, 1, 0xBC0); (0x13F8, 0x13FD, 1, (-0x8)); (0x1C80, 0x1C80, 1, (-0x186E));
  (0x1C81, 0x1C81, 1, (-0x186D)); (0x1C82, 0x1C82, 1, (-0x1864)); (0x1C83, 0x1C84, 1, (-0x1862)); (0x1C85, 0x1C85, 1, (-0x1863));
  (0x1C86, 0x1C86, 1, (-0x185C)); (0x1C87, 0x1C87, 1, (-0x1825)); (0x1C88, 0x1C88, 1, 0x89C2); (0x1D79, 0x1D79, 1, 0x8A04);
  (0x1D7D, 0x1D7D, 1, 0xEE6); (0x1D8E, 0x1D8E, 1, 0x8A38); (0x1E01, 0x1E95, 2, (-0x1)); (0x1E9B, 0x1E9B, 1, (-0x3B));
  (0x1EA1, 0x1EFF, 2, (-0x1)); (0x1F00, 0x1F07, 1, 0x8); (0x1F10, 0x1F15, 1, 0x8); (0x1F20, 0x1F27, 1, 0x8);
  (0x1F30, 0x1F37, 1, 0x8); (0x1F40, 0x1F45, 1, 0x8); (0x1F51, 0x1F57, 2, 0x8); (0x1F60, 0x1F67, 1, 0x8);
  (0x1F70, 0x1F71, 1, 0x4A); (0x1F72, 0x1F75, 1, 0x56); (0x1F76, 0x1F77, 1, 0x64); (0x1F78, 0x1F79, 1, 0x80);
  (0x1F7A, 0x1F7B, 1, 0x70); (0x1F7C, 0x1F7D, 1, 0x7E); (0x1FB0, 0x1FB1, 1, 0x8); (0x1FBE, 0x1FBE, 1, (-0x1C25));
  (0x1FD0, 0x1FD1, 1, 0x8); (0x1FE0, 0x1FE1, 1, 0x8); (0x1FE5, 0x1FE5, 1, 0x7); (0x214E, 0x214E, 1, (-0x1C));
  (0x2170, 0x217F, 1, (-0x10)); (0x2184, 0x2184, 1, (-0x1)); (0x24D0, 0x24E9, 1, (-0x1A)); (0x2C30, 0x2C5F, 1, (-0x30));
  (0x2C61, 0x2C61, 1, (-0x1)); (0x2C65, 0x2C65, 1, (-0x2A2B)); (0x2C66, 0x2C66, 1, (-0x2A28)); (0x2C68, 0x2C6C, 2, (-0x1));
  (0x2C73, 0x2C73, 1, (-0x1)); (0x2C76, 0x2C76, 1, (-0x1)); (0x2C81, 0x2CE3, 2, (-0x1)); (0x2CEC, 0x2CEE, 2, (-0x1));
  (0x2CF3, 0x2CF3, 1, (-0x1)); (0x2D00, 0x2D25, 1, (-0x1C60)); (0x2D27, 0x2D27, 1, (-0x1C60)); (0x2D2D, 0x2D2D, 1, (-0x1C60));
  (0xA641, 0xA66D, 2, (-0x1)); (0xA681, 0xA69B, 2, (-0x1)); (0xA723, 0xA72F, 2, (-0x1)); (0xA733, 0xA76F, 2, (-0x1));
  (0xA77A, 0xA77C, 2, (-0x1)); (0xA77F, 0xA787, 2, (-0x1)); (0xA78C, 0xA78C, 1, (-0x1)); (0xA791, 0xA793, 2, (-0x1));
  (0xA794, 0xA794, 1, 0x30); (0xA797, 0xA7A9, 2, (-0x1)); (0xA7B5, 0xA7C3, 2, (-0x1)); (0xA7C8, 0xA7CA, 2, (-0x1));
  (0xA7D1, 0xA7D1, 1, (-0x1)); (0xA7D7, 0xA7D9, 2, (-0x1)); (0xA7F6, 0xA7F6, 1, (-0x1)); (0xAB53, 0xAB53, 1, (-0x3A0));
  (0xAB70, 0xABBF, 1, (-0x97D0)); (0xFF41, 0xFF5A, 1, (-0x20))
].

Definition canonicalize (u : Z) : Z := u + lookup_delta u canonicalize_table.

Close Scope Z_scope.

(** Line terminators, which [.] does not match. *)
Definition is_line_terminator (u : Z) : bool :=
  Z.eqb u 10 || Z.eqb u 13 || Z.eqb u 0x2028 || Z.eqb u 0x2029.

(** With the [i] flag, code units are compared after [canonicalize]. *)
Definition atom_matches (a : atom) (c : Z) : bool :=
  match a with
  | Lit x => Z.eqb (canonicalize x) (canonicalize c)
  | AnyChar => negb (is_line_terminator c)
  end.

(** The pattern matches at the start of [s]. *)
Fixpoint match_at (r : list atom) (s : list Z) : bool :=
  match r, s with
  | [], _ => true
  | _ :: _, [] => false
  | a :: r', c :: s' => atom_matches a c && match_at r' s'
  end.

(** [regex.test(value)] from [lastIndex = 0]. *)
Definition regex_test (r : list atom) (s : list Z) : bool :=
  existsb (match_at r) (suffixes s).

(** [s.replace(regex, rep)] with the global flag: from left to right, each
    match is replaced by [rep] and scanning resumes after it; after an
    empty match one code unit is copied. [skip] counts the code units of
    the current match still to be dropped. *)
Fixpoint replace_global (r : list atom) (rep : list Z) (s : list Z) (skip : nat)
  : list Z :=
  match skip, s with
  | S k, [] => []
  | S k, _ :: s' => replace_global r rep s' k
  | O, _ =>
      if match_at r s then
        match r, s with
        | [], [] => rep
        | [], c :: s' => (rep ++ c :: replace_global r rep s' 0)%list
        | _ :: _, [] => []
        | _ :: r', _ :: s' => (rep ++ replace_global r rep s' (length r'))%list
        end
      else
        match s with
        | [] => []
        | c :: s' => c :: replace_global r rep s' 0
        end
  end.

Definition dquote : string := String (ascii_of_nat 34) EmptyString.

(** [`<span style="background-color: yellow">${searchValue}</span>`]; the
    query holds no [$], so the replacement has no substitution pattern. *)
Definition highlight_span (q : string) : list Z :=
  units ("<span style=" ++ dquote ++ "background-color: yellow" ++ dquote ++ ">"
         ++ q ++ "</span>").

(** What the component renders: inner HTML (a JavaScript string, as code
    units) or a text node. *)
Inductive rendered : Type :=
| InnerHtml (html : list Z)
| PlainText (s : string).

Definition HighlightSearchValue (value searchValue : string) : option rendered :=
  match compile (units searchValue) with
  | None => None
  | Some r =>
      Some (if regex_test r (units value)
            then InnerHtml (replace_global r (highlight_span searchValue) (units value) 0)
            else PlainText value)
  end.

(** The pattern of a query made of ordinary characters only. *)
Definition lits (q : list Z) : list atom := map Lit q.

(** Spec-side reading of the highlighter for a literal query: code units
    are equal up to case when the case-insensitive pattern matches one
    with the other. *)
Fixpoint rx_prefix (q s : list Z) : bool :=
  match q, s with
  | [], _ => true
  | _ :: _, [] => false
  | a :: q', b :: s' => Z.eqb (canonicalize a) (canonicalize b) && rx_prefix q' s'
  end.

Definition rx_contains (s q : list Z) : bool := existsb (rx_prefix q) (suffixes s).

(** Every leftmost non-overlapping occurrence of [q] in [s], up to case, is
    replaced by [rep]. *)
Fixpoint ci_replace_all (q rep s : list Z) (skip : nat) : list Z :=
  match skip, s with
  | S k, [] => []
  | S k, _ :: s' => ci_replace_all q rep s' k
  | O, _ =>
      if rx_prefix q s then
        match q, s with
        | [], [] => rep
        | [], c :: s' => (rep ++ c :: ci_replace_all q rep s' 0)%list
        | _ :: _, [] => []
        | _ :: q', _ :: s' => (rep ++ ci_replace_all q rep s' (length q'))%list
        end
      else
        match s with
        | [] => []
        | c :: s' => c :: ci_replace_all q rep s' 0
        end
  end.

(** ** Rendering of the suggestion list

    index.tsx 162-188, part_002 187-213:
    [{showSuggestions && (<ul> {suggestions && suggestions.length ?
        suggestions.map(suggestion => <li className={`filter-item ${
          suggestions.indexOf(suggestion) === activeSuggestion ? "active" : ""}`}
          ...>) : <li className="filter-item">No results found</li>} </ul>)}]
    A row is the item together with whether it carries the "active" class. *)
Inductive listView (T : Type) : Type :=
| ListHidden
| NoResults
| Rows (rows : list (T * bool)).
Arguments ListHidden {T}.
Arguments NoResults {T}.
Arguments Rows {T}.

Definition renderList {T : Type} (same_item : T -> T -> bool) (st : state T)
  : listView T :=
  if showSuggestions st then
    match suggestions st with
    | [] => NoResults
    | _ =>
        Rows (map (fun s => (s, Z.eqb (js_indexOf T same_item (suggestions st) s)
                                      (activeSuggestion st)))
                  (suggestions st))
    end
  else ListHidden.

(** ** The data hook [useFetch] (src/src/hooks/useFetch.ts)

    [isLoading] starts [true], [data] and [error] start [null]. The effect
    runs [fetchData] once per [url]; a change of [url] starts a new fetch
    without touching the state. A completed fetch does, in order:
    - [fetch] rejects with [e]: [setError(e); setLoading(false)];
    - [!response.ok]: [throw new Error("Network error!")], caught:
      [setError(..); setLoading(false)];
    - [response.json()] rejects with [e]: [setError(e); setLoading(false)];
    - otherwise [setData(data); setLoading(false)]. *)
Section Fetch.
Variable A : Type.      (* the parsed JSON body [T] *)
Variable E : Type.      (* what [fetch] or [response.json()] reject with *)

Inductive fetchError : Type :=
| NetworkError          (* [new Error("Network error!")] *)
| Thrown (e : E).

Record FetchData : Type := mkFetchData {
  isLoading : bool;
  fetched : option A;           (* [data] *)
  error : option fetchError     (* [error], [null] as [None] *)
}.

Definition fetch_initial : FetchData := mkFetchData true None None.

(** How one request ends: [fetch] rejects, or a response with its [ok]
    flag and the outcome of [response.json()]. *)
Inductive fetchOutcome : Type :=
| FetchRejected (e : E)
| Responded (ok : bool) (json : A + E).

Definition setData (st : FetchData) (d : A) : FetchData :=
  mkFetchData (isLoading st) (Some d) (error st).
Definition setError (st : FetchData) (e : fetchError) : FetchData :=
  mkFetchData (isLoading st) (fetched st) (Some e).
Definition setLoading (st : FetchData) (b : bool) : FetchData :=
  mkFetchData b (fetched st) (error st).

Definition fetchData_complete (st : FetchData) (o : fetchOutcome) : FetchData :=
  match o with
  | FetchRejected e => setLoading (setError st (Thrown e)) false
  | Responded false _ => setLoading (setError st NetworkError) false
  | Responded true (inr e) => setLoading (setError st (Thrown e)) false
  | Responded true (inl d) => setLoading (setData st d) false
  end.

(** Requests completing one after the other, in the order they end. *)
Definition fetch_completions (st : FetchData) (os : list fetchOutcome) : FetchData :=
  fold_left fetchData_complete os st.

End Fetch.
Arguments NetworkError {E}.
Arguments Thrown {E}.
Arguments mkFetchData {A E}.
Arguments isLoading {A E}.
Arguments fetched {A E}.
Arguments error {A E}.
Arguments fetch_initial {A E}.
Arguments FetchRejected {A E}.
Arguments Responded {A E}.
Arguments fetchData_complete {A E}.
Arguments fetch_completions {A E}.

(** ** The country page (src/src/App.tsx, [App])

    Types of src/src/types/Country.ts (second declaration, without [id]).
    [useEffect(() => { const countries = [];
       if (data && data.length) data.map(d => countries.push({name: d.name.common,
         cca2: d.cca2, official: d.name.official, region: d.region}));
       setCountries(countries); }, [data])];
    the page mounts [Autocomplete] with [filterField="name"]. *)
Record CountryName : Type := mkCountryName { common : string; official : string }.

Record Country : Type := mkCountry {
  name : CountryName;
  flag : string;
  population : Z;
  region : string;
  cca2 : string
}.

Record CountryData : Type := mkCountryData {
  cd_name : string;
  cd_official : string;
  cd_cca2 : string;
  cd_region : string
}.

Definition toCountryData (d : Country) : CountryData :=
  mkCountryData (common (name d)) (official (name d)) (cca2 d) (region d).

(** The [data.map(d => countries.push(...))] loop. *)
Fixpoint push_countries (countries : list CountryData) (l : list Country)
  : list CountryData :=
  match l with
  | [] => countries
  | d :: l' => push_countries (countries ++ [toCountryData d]) l'
  end.

(** The array passed to [setCountries]; [None] is [data === null]. *)
Definition countriesOf (data : option (list Country)) : list CountryData :=
  match data with
  | Some ((_ :: _) as l) => push_countries [] l
  | _ => []
  end.

(** [filterField="name"]. *)
Definition countryField (c : CountryData) : jsval := JStr (cd_name c).

(** Two countries whose names hold letters outside ASCII. *)
Definition aland : Country :=
  mkCountry (mkCountryName "Åland Islands" "Åland Islands") "AX flag" 29458
    "Europe" "AX".
Definition curacao : Country :=
  mkCountry (mkCountryName "Curaçao" "Country of Curaçao") "CW flag" 155014
    "Americas" "CW".

(** ** A concrete host: items are the Pokemon names themselves *)

Definition pokemon : list string := ["bulbasaur"; "onix"; "abra"].

(** The component mounted with [data = pokemon], [filterField] reading the
    name, reference equality on names and a host callback. *)
Definition demo_step (v : variant) := step string JStr String.eqb pokemon true v.
Definition demo_run (v : variant) :=
  run_events string JStr String.eqb pokemon true v (initial string).

(** A host whose items are raw field values, one of them not a string (the
    [as string] cast is unchecked). *)
Definition mixed_data : list jsval := [JStr "onix"; JNum 25].
Definition mixed_run (v : variant) :=
  run_events jsval (fun x => x) jsval_strict_eq mixed_data true v (initial jsval).

(** * Proofs *)

(** ** Strings *)

Ltac zbool :=
  repeat match goal with
  | |- context [(?a <=? ?b)%Z] => destruct (Z.leb_spec a b)
  | |- context [(?a <? ?b)%Z] => destruct (Z.ltb_spec a b)
  | |- context [(?a =? ?b)%Z] => destruct (Z.eqb_spec a b)
  | H : context [(?a <=? ?b)%Z] |- _ => destruct (Z.leb_spec a b)
  | H : context [(?a <? ?b)%Z] |- _ => destruct (Z.ltb_spec a b)
  | H : context [(?a =? ?b)%Z] |- _ => destruct (Z.eqb_spec a b)
  end; simpl in *; try discriminate; try reflexivity; try lia.

Lemma is_scalar_iff (c : Z) :
  is_scalar c = true <-> (0 <= c <= 0x10FFFF /\ ~ (0xD800 <= c <= 0xDFFF))%Z.
Proof. unfold is_scalar; split; intros H; zbool. Qed.

Lemma scalar_or_fffd_ok (c : Z) : is_scalar (scalar_or_fffd c) = true.
Proof. unfold scalar_or_fffd; destruct (is_scalar c) eqn:E; [exact E | reflexivity]. Qed.

Lemma byte_nonneg (b : ascii) : (0 <= byte b)%Z.
Proof. unfold byte; lia. Qed.

Lemma utf8_decode_scalar_aux (n : nat) (s : string) :
  (String.length s <= n)%nat ->
  Forall (fun c => is_scalar c = true) (utf8_decode s).
Proof.
  revert s; induction n as [|n IH]; intros [|b0 s1] Hl; simpl in Hl;
    try (simpl; constructor); try lia.
  assert (IH1 : forall s, (String.length s <= String.length s1)%nat ->
                 Forall (fun c => is_scalar c = true) (utf8_decode s))
    by (intros s Hs; apply IH; lia).
  pose proof (byte_nonneg b0) as B0.
  cbn [utf8_decode].
  destruct (byte b0 <? 0x80)%Z eqn:E0.
  { constructor; [apply is_scalar_iff; apply Z.ltb_lt in E0; lia|].
    apply IH1; lia. }
  destruct ((0xC0 <=? byte b0) && (byte b0 <? 0xE0))%Z.
  { destruct s1 as [|b1 s2]; [repeat constructor|].
    destruct (is_cont b1); constructor;
      try apply scalar_or_fffd_ok; try reflexivity; apply IH1; simpl; lia. }
  destruct ((0xE0 <=? byte b0) && (byte b0 <? 0xF0))%Z.
  { destruct s1 as [|b1 [|b2 s3]];
      [constructor; [reflexivity | apply IH1; simpl; lia]..|].
    destruct (is_cont b1 && is_cont b2); constructor;
      try apply scalar_or_fffd_ok; try reflexivity; apply IH1; simpl; lia. }
  destruct ((0xF0 <=? byte b0) && (byte b0 <? 0xF8))%Z.
  { destruct s1 as [|b1 [|b2 [|b3 s4]]];
      [constructor; [reflexivity | apply IH1; simpl; lia]..|].
    destruct (is_cont b1 && is_cont b2 && is_cont b3); constructor;
      try apply scalar_or_fffd_ok; try reflexivity; apply IH1; simpl; lia. }
  constructor; [reflexivity | apply IH1; lia].
Qed.

(** Decoding yields Unicode scalar values only. *)
Lemma utf8_decode_scalar (s : string) :
  Forall (fun c => is_scalar c = true) (utf8_decode s).
Proof. now apply (utf8_decode_scalar_aux (String.length s)). Qed.

(** The code units of a scalar value. *)
Lemma utf16_of_cp_cases (c : Z) :
  is_scalar c = true ->
  (c < 0x10000 /\ ~ (0xD800 <= c <= 0xDFFF) /\ utf16_of_cp c = [c])%Z \/
  (exists hi lo, utf16_of_cp c = [hi; lo] /\ 0x10000 <= c /\
     0xD800 <= hi <= 0xDBFF /\ 0xDC00 <= lo <= 0xDFFF /\
     c = (hi - 0xD800) * 0x400 + (lo - 0xDC00) + 0x10000)%Z.
Proof.
  intros Hc; apply is_scalar_iff in Hc; unfold utf16_of_cp.
  destruct (Z.ltb_spec c 0x10000); [left; split; [lia | split; [lia | reflexivity]]|right].
  eexists _, _; split; [reflexivity|].
  pose proof (Z.div_mod (c - 0x10000) 0x400 ltac:(lia)).
  pose proof (Z.mod_pos_bound (c - 0x10000) 0x400 ltac:(lia)).
  lia.
Qed.

Lemma cps_of_units_utf16 (A : list Z) :
  Forall (fun c => is_scalar c = true) A -> cps_of_units (utf16_encode A) = A.
Proof.
  induction A as [|a A IH]; intros HA; [reflexivity|].
  inversion HA as [|x y Ha HA']; subst.
  specialize (IH HA'); unfold utf16_encode in *; simpl.
  destruct (utf16_of_cp_cases a Ha) as [(Hs & Hn & ->) | (hi & lo & -> & Hb & Hhi & Hlo & Ha')];
    simpl.
  - replace ((0xD800 <=? a) && (a <=? 0xDBFF))%Z with false by zbool.
    now rewrite IH.
  - replace ((0xD800 <=? hi) && (hi <=? 0xDBFF))%Z with true by zbool.
    replace ((0xDC00 <=? lo) && (lo <=? 0xDFFF))%Z with true by zbool.
    rewrite IH; f_equal; lia.
Qed.

(** Lowercasing is code point by code point on [context_free] text. *)
Lemma lower_cps_context_free (before A : list Z) :
  forallb (fun c => negb (Z.eqb c 0x3A3 || Z.eqb c 0x130)) A = true ->
  lower_cps before A = map lower_simple A.
Proof.
  revert before; induction A as [|c A IH]; intros before H; [reflexivity|].
  simpl in H; apply andb_true_iff in H as [Hc HA].
  apply negb_true_iff, orb_false_iff in Hc as [H1 H2].
  simpl; rewrite H1; unfold lower_full; rewrite H2; simpl; now rewrite IH.
Qed.

Lemma lookup_delta_in (c : Z) (t : list (Z * Z * Z * Z)) :
  lookup_delta c t = 0%Z \/
  exists lo hi st, In (lo, hi, st, lookup_delta c t) t /\ (lo <= c <= hi)%Z.
Proof.
  induction t as [|[[[lo hi] st] d] t IH]; simpl; [now left|].
  destruct ((lo <=? c) && (c <=? hi) && (Z.modulo (c - lo) st =? 0))%Z eqn:E.
  - right; exists lo, hi, st; split; [now left|].
    apply andb_true_iff in E as [E _]; apply andb_true_iff in E as [E1 E2].
    apply Z.leb_le in E1; apply Z.leb_le in E2; lia.
  - destruct IH as [IH|(lo' & hi' & st' & Hin & Hr)]; [now left|].
    right; exists lo', hi', st'; split; [now right | exact Hr].
Qed.

(** Every entry of [lower_table] maps into scalar values, all below or all
    above the surrogates. *)
Lemma lower_table_ok :
  forallb (fun '(lo, hi, st, d) =>
             is_scalar (lo + d) && is_scalar (hi + d) &&
             Bool.eqb (lo + d <? 0xD800) (hi + d <? 0xD800))%Z lower_table = true.
Proof. vm_compute; reflexivity. Qed.

Lemma lower_simple_scalar (c : Z) :
  is_scalar c = true -> is_scalar (lower_simple c) = true.
Proof.
  intros Hc; unfold lower_simple.
  destruct (lookup_delta_in c lower_table) as [->|(lo & hi & st & Hin & Hr)].
  - now rewrite Z.add_0_r.
  - set (d := lookup_delta c lower_table) in *.
    pose proof lower_table_ok as Ht; rewrite forallb_forall in Ht.
    specialize (Ht _ Hin); cbv beta iota in Ht.
    apply andb_true_iff in Ht as [Ht H3]; apply andb_true_iff in Ht as [H1 H2].
    apply is_scalar_iff in H1; apply is_scalar_iff in H2; apply is_scalar_iff.
    destruct (Z.ltb_spec (lo + d) 0xD800), (Z.ltb_spec (hi + d) 0xD800);
      simpl in H3; try discriminate; lia.
Qed.

Lemma includes_existsb (s t : list Z) :
  includes s t = existsb (prefix_units t) (suffixes s).
Proof.
  induction s as [|c s IH]; simpl; [reflexivity|].
  now rewrite IH.
Qed.

Lemma includes_nil_r (s : list Z) : includes s [] = true.
Proof. destruct s; reflexivity. Qed.

Lemma prefix_units_nil_r (t : list Z) : t <> [] -> prefix_units t [] = false.
Proof. destruct t; [congruence | reflexivity]. Qed.

Lemma utf16_encode_cons (a : Z) (A : list Z) :
  utf16_encode (a :: A) = (utf16_of_cp a ++ utf16_encode A)%list.
Proof. reflexivity. Qed.

(** Comparing the code units of scalar values compares the values. *)
Lemma prefix_units_utf16 (B A : list Z) :
  Forall (fun c => is_scalar c = true) B ->
  Forall (fun c => is_scalar c = true) A ->
  prefix_units (utf16_encode B) (utf16_encode A) = prefix_units B A.
Proof.
  revert A; induction B as [|b B IH]; intros A HB HA; [reflexivity|].
  inversion HB as [|x y Hb HB']; subst.
  destruct A as [|a A].
  - rewrite utf16_encode_cons.
    destruct (utf16_of_cp_cases b Hb) as [(_ & _ & ->)|(hi & lo & -> & _)]; reflexivity.
  - inversion HA as [|x y Ha HA']; subst.
    rewrite !utf16_encode_cons.
    destruct (utf16_of_cp_cases b Hb) as [(Hs & Hn & ->)|(hi & lo & -> & Hb' & Hhi & Hlo & Hbv)];
    destruct (utf16_of_cp_cases a Ha) as [(Hs' & Hn' & ->)|(hi' & lo' & -> & Ha' & Hhi' & Hlo' & Hav)];
      simpl.
    + destruct (Z.eqb_spec b a); simpl; [apply IH; assumption | reflexivity].
    + replace (b =? hi')%Z with false by zbool; replace (b =? a)%Z with false by zbool;
        reflexivity.
    + replace (hi =? a)%Z with false by zbool; replace (b =? a)%Z with false by zbool;
        reflexivity.
    + destruct (Z.eqb_spec b a) as [Eab|Nab].
      * replace (hi =? hi')%Z with true by zbool; replace (lo =? lo')%Z with true by zbool.
        simpl; apply IH; assumption.
      * destruct (Z.eqb_spec hi hi'); simpl; [|reflexivity].
        replace (lo =? lo')%Z with false by zbool; reflexivity.
Qed.

Lemma utf16_head (B : list Z) :
  Forall (fun c => is_scalar c = true) B -> B <> [] ->
  exists u rest, utf16_encode B = u :: rest /\ ~ (0xDC00 <= u <= 0xDFFF)%Z.
Proof.
  intros HB Hne; destruct B as [|b B]; [congruence|].
  inversion HB as [|x y Hb _]; subst; rewrite utf16_encode_cons.
  destruct (utf16_of_cp_cases b Hb) as [(Hs & Hn & ->)|(hi & lo & -> & _ & Hhi & _)].
  - eexists _, _; split; [reflexivity | lia].
  - eexists _, _; split; [reflexivity | lia].
Qed.

(** [includes] on the code units of scalar values is containment of the
    code point sequences: a match never starts inside a surrogate pair. *)
Lemma includes_utf16 (A B : list Z) :
  Forall (fun c => is_scalar c = true) A ->
  Forall (fun c => is_scalar c = true) B ->
  includes (utf16_encode A) (utf16_encode B) = includes A B.
Proof.
  intros HA HB.
  destruct B as [|b B']; [now rewrite !includes_nil_r|].
  set (B := b :: B') in *; assert (Hne : B <> []) by discriminate; clearbody B.
  rewrite !includes_existsb.
  destruct (utf16_head B HB Hne) as (u & rest & Eu & Hu).
  induction A as [|a A IH].
  - simpl; now rewrite Eu, (prefix_units_nil_r B Hne).
  - inversion HA as [|x y Ha HA']; subst x y.
    specialize (IH HA').
    change (existsb (prefix_units (utf16_encode B)) (suffixes (utf16_encode (a :: A))))
      with (existsb (prefix_units (utf16_encode B))
              (suffixes (utf16_of_cp a ++ utf16_encode A)%list)).
    destruct (utf16_of_cp_cases a Ha) as [(Hs & Hn & Hc)|(hi & lo & Hc & _ & _ & Hlo & _)].
    + rewrite Hc; simpl.
      rewrite <- IH, <- (prefix_units_utf16 B (a :: A) HB HA).
      rewrite utf16_encode_cons, Hc; reflexivity.
    + rewrite Hc; simpl.
      rewrite <- IH, <- (prefix_units_utf16 B (a :: A) HB HA).
      rewrite utf16_encode_cons, Hc; simpl.
      rewrite Eu; simpl.
      replace (u =? lo)%Z with false by zbool; reflexivity.
Qed.

Lemma toLowerCase_units (s : string) :
  toLowerCase (units s) = utf16_encode (lower_cps [] (utf8_decode s)).
Proof.
  unfold toLowerCase, units; rewrite cps_of_units_utf16; [reflexivity|].
  apply utf8_decode_scalar.
Qed.

Lemma prefix_units_map_lower (q s : list Z) :
  prefix_units (map lower_simple q) (map lower_simple s) = ci_prefix q s.
Proof.
  revert s; induction q as [|a q IH]; intros [|b s]; simpl; try reflexivity.
  unfold ci_eq; now rewrite IH.
Qed.

Lemma suffixes_map {A B : Type} (f : A -> B) (l : list A) :
  suffixes (map f l) = map (map f) (suffixes l).
Proof. induction l as [|x l IH]; simpl; [reflexivity | now rewrite IH]. Qed.

(** On [context_free] text, comparing the lowercased code units is
    containment up to case, code point by code point. *)
Lemma includes_lower_ci (f q : string) :
  context_free f = true -> context_free q = true ->
  includes (toLowerCase (units f)) (toLowerCase (units q)) = ci_contains f q.
Proof.
  intros Hf Hq; rewrite !toLowerCase_units.
  unfold context_free in *; rewrite !lower_cps_context_free by assumption.
  rewrite includes_utf16;
    try (apply Forall_map; eapply Forall_impl; [|apply utf8_decode_scalar];
         intros c Hc; now apply lower_simple_scalar).
  rewrite includes_existsb, suffixes_map; unfold ci_contains.
  induction (suffixes (utf8_decode f)) as [|x xs IH]; simpl; [reflexivity|].
  now rewrite prefix_units_map_lower, IH.
Qed.

(** The filter over string-valued fields, as [List.filter]. *)
Lemma filterData_strings {T : Type} (fs : T -> string) (L : list T) (q : string) :
  filterData (fun t => JStr (fs t)) L q
  = Ok (List.filter
          (fun t => includes (toLowerCase (units (fs t))) (toLowerCase (units q))) L).
Proof.
  unfold filterData; induction L as [|x L IH]; simpl in *; [reflexivity|].
  rewrite IH; reflexivity.
Qed.

(** C3 (failing input): the field value "ΑΣΑ" contains the query "ΑΣ",
    even with the same case. Lowercasing turns the sigma that ends the
    query into a final sigma: "ΑΣ".toLowerCase() is "ας" while
    "ΑΣΑ".toLowerCase() is "ασα", and "ασα".includes("ας") is false, so
    the filter drops the item. *)
Theorem filter_drops_matching_item :
  includes (units "ΑΣΑ") (units "ΑΣ") = true /\
  ci_contains "ΑΣΑ" "ΑΣ" = true /\
  toLowerCase (units "ΑΣΑ") = units "ασα" /\
  toLowerCase (units "ΑΣ") = units "ας" /\
  filterData JStr ["ΑΣΑ"] "ΑΣ" = Ok [].
Proof. vm_compute; repeat split. Qed.

Lemma prefix_units_iff (t s : list Z) :
  prefix_units t s = true <-> exists r, s = (t ++ r)%list.
Proof.
  revert s; induction t as [|a t IH]; intros [|b s]; simpl.
  - split; [intros _; now exists [] | reflexivity].
  - split; [intros _; now exists (b :: s) | reflexivity].
  - split; [discriminate | intros [r E]; discriminate].
  - rewrite andb_true_iff, IH; split.
    + intros [Hab [r ->]]; apply Z.eqb_eq in Hab; subst; now exists r.
    + intros [r E]; injection E as -> E; split; [apply Z.eqb_refl | now exists r].
Qed.

Lemma includes_iff (s t : list Z) :
  includes s t = true <-> exists pre post, s = (pre ++ t ++ post)%list.
Proof.
  induction s as [|c s IH]; simpl.
  - rewrite orb_false_r, prefix_units_iff; split.
    + intros [r E]; now exists [], r.
    + intros ([|x pre] & post & E); [now exists post | discriminate].
  - rewrite orb_true_iff, prefix_units_iff, IH; split.
    + intros [[r E] | (pre & post & E)].
      * now exists [], r.
      * exists (c :: pre), post; simpl; now rewrite E.
    + intros ([|x pre] & post & E); [left; now exists post|].
      injection E as -> E; right; now exists pre, post.
Qed.

Lemma includes_trans (a b c : list Z) :
  includes a b = true -> includes b c = true -> includes a c = true.
Proof.
  rewrite !includes_iff; intros (p1 & s1 & ->) (p2 & s2 & ->).
  exists (p1 ++ p2)%list, (s2 ++ s1)%list; now rewrite <- !app_assoc.
Qed.

(** ** Pending timers are never cancelled *)

(** C1 (failing run): typing "a" then "ab" within the delay; when the first
    timer elapses, the result of the superseded request "a" is committed
    while the newer request "ab" is still pending, in both versions. *)
Theorem stale_result_committed (v : variant) :
  demo_run v [Change "a"; Change "ab"; TimerFires]
    = Some (mkState (JStr "ab") true ["bulbasaur"; "abra"] 0%Z ["ab"], []) /\
  filterData JStr pokemon "a" = Ok ["bulbasaur"; "abra"] /\
  filterData JStr pokemon "ab" = Ok ["abra"].
Proof. destruct v; repeat split; reflexivity. Qed.

(** C4 (failing run): typing "a" then deleting it before the delay elapses;
    the pending timer makes the list visible with an empty input text. *)
Theorem empty_query_visible (v : variant) :
  demo_run v [Change "a"; Change ""; TimerFires]
    = Some (mkState (JStr "") true ["bulbasaur"; "abra"] 0%Z [], []).
Proof. destruct v; reflexivity. Qed.

(** ** Enter on the "no results" list *)

(** C2 (failing run): typing "xyz" (no match) and pressing Enter. index.tsx
    reads a field of [suggestions[0]], which is [undefined], and throws a
    TypeError after hiding the list; the Promise-based version guards on
    [suggestions.length > 0] and leaves everything unchanged. *)
Theorem enter_on_empty_results :
  demo_run IndexTsx [Change "xyz"; TimerFires; KeyDown "Enter"]
    = Some (mkState (JStr "xyz") false [] 0%Z [], [UncaughtError TypeError]) /\
  demo_run PromiseBased [Change "xyz"; TimerFires; KeyDown "Enter"]
    = Some (mkState (JStr "xyz") true [] 0%Z [], []).
Proof. split; reflexivity. Qed.

(** ** The cursor *)

(** C6 (failing run): after "a" is committed (two suggestions), typing "ab"
    resets the cursor, ArrowDown moves it on the old list to 1, and the
    result of "ab" (one suggestion) is committed without touching the
    cursor: activeIndex 1 is outside [0, 1). Enter then throws. *)
Theorem cursor_out_of_bounds (v : variant) :
  demo_run v [Change "a"; TimerFires; Change "ab"; KeyDown "ArrowDown"; TimerFires]
    = Some (mkState (JStr "ab") true ["abra"] 1%Z [], []) /\
  demo_run v [Change "a"; TimerFires; Change "ab"; KeyDown "ArrowDown"; TimerFires;
              KeyDown "Enter"]
    = Some (mkState (JStr "ab") false ["abra"] 1%Z [], [UncaughtError TypeError]).
Proof. destruct v; split; reflexivity. Qed.

(** ** Enter in the Promise-based version *)

Lemma jsval_strict_eq_empty (x : jsval) :
  jsval_strict_eq x (JStr "") = true <-> x = JStr "".
Proof.
  destruct x as [s| |]; simpl; try (split; congruence).
  rewrite String.eqb_eq; split; congruence.
Qed.

Section Keys.
Variable T : Type.
Variable filterField : T -> jsval.
Variable same_item : T -> T -> bool.
Variable data : list T.
Variable has_cb : bool.

(** C10: in the Promise-based version, Enter in a state whose input text is
    empty, or whose suggestion list is empty, leaves the state unchanged and
    reports nothing (no host callback); so Enter commits only when both are
    non-empty. *)
Theorem promise_enter_needs_text (st : state T) :
  value st = JStr "" \/ suggestions st = [] ->
  step T filterField same_item data has_cb PromiseBased st (KeyDown "Enter")
    = Some (st, []).
Proof.
  intros H; unfold step, onKeyDown; simpl.
  destruct H as [H|H].
  - rewrite H; simpl; reflexivity.
  - rewrite H; simpl; rewrite andb_false_r; reflexivity.
Qed.

Definition callback (item : T) : list (report T) :=
  if has_cb then [Called item] else [].

Definition committed (st : state T) (item : T) : state T :=
  mkState (filterField item) false (suggestions st) (activeSuggestion st)
    (pending st).

Lemma js_index_length (l : list T) (i : Z) (x : T) :
  js_index l i = Some x -> (0 <? Z.of_nat (length l))%Z = true.
Proof.
  unfold js_index; destruct (0 <=? i)%Z; [|discriminate].
  intros Hn; assert (Hl : (Z.to_nat i < length l)%nat)
    by (apply nth_error_Some; congruence).
  apply Z.ltb_lt; lia.
Qed.

(** C5 (amended): when the active index designates an item of the
    suggestion list, Enter hides the list, sets the input text to that
    item's field value and calls the host callback once with it; in
    index.tsx always, in the Promise-based version when the input text is
    not empty. A click on a rendered item commits that item in the same way,
    whatever the active index. *)
Theorem commit_active_or_clicked (v : variant) (st : state T) :
  (forall item,
     js_index (suggestions st) (activeSuggestion st) = Some item ->
     (v = IndexTsx \/ value st <> JStr "") ->
     step T filterField same_item data has_cb v st (KeyDown "Enter")
       = Some (committed st item, callback item)) /\
  (forall i item,
     showSuggestions st = true ->
     nth_error (suggestions st) i = Some item ->
     step T filterField same_item data has_cb v st (ClickItem i)
       = Some (committed st item, callback item)).
Proof.
  split.
  - intros item Hi Hv; unfold step, onKeyDown, commitActive; simpl.
    replace (match v with
             | IndexTsx => true
             | PromiseBased =>
                 negb (jsval_strict_eq (value st) (JStr "")) &&
                 (0 <? Z.of_nat (length (suggestions st)))%Z
             end) with true.
    + rewrite Hi; simpl; unfold callback; now destruct has_cb.
    + destruct Hv as [->|Hv]; [reflexivity|]; destruct v; [reflexivity|].
      rewrite (js_index_length _ _ _ Hi), andb_true_r.
      destruct (jsval_strict_eq (value st) (JStr "")) eqn:E; [|reflexivity].
      apply jsval_strict_eq_empty in E; contradiction.
  - intros i item Hs Hn; unfold step; rewrite Hs, Hn; simpl.
    unfold callback; now destruct has_cb.
Qed.

(** C8 (amended): Escape hides the list and clears the input text; a
    mouse-down outside the component hides the list and changes nothing
    else, with no host callback. More generally, every event that turns a
    visible list hidden is a keystroke that empties the input, Escape
    (input cleared, nothing reported), an Enter or click commit (input set
    to the committed item's field value, host callback called with it), or
    else leaves the input text as it was and calls no host callback. *)
Theorem hide_transitions (v : variant) (st : state T) :
  step T filterField same_item data has_cb v st (KeyDown "Escape")
    = Some (mkState (JStr "") false (suggestions st) (activeSuggestion st)
              (pending st), []) /\
  step T filterField same_item data has_cb v st MouseDownOutside
    = Some (mkState (value st) false (suggestions st) (activeSuggestion st)
              (pending st), []) /\
  (forall ev st' out,
     step T filterField same_item data has_cb v st ev = Some (st', out) ->
     showSuggestions st = true -> showSuggestions st' = false ->
     (ev = Change "" /\ value st' = JStr "" /\ out = []) \/
     (ev = KeyDown "Escape" /\ value st' = JStr "" /\ out = []) \/
     (exists item, (ev = KeyDown "Enter" \/ exists i, ev = ClickItem i) /\
        value st' = filterField item /\ out = callback item) \/
     (value st' = value st /\ forall item, ~ In (Called item) out)).
Proof.
  split; [reflexivity|]; split; [reflexivity|].
  intros ev st' out Hstep Hvis Hhid.
  destruct ev as [input|key|i|i| |]; simpl in Hstep.
  - (* Change *)
    unfold handleOnChange in Hstep.
    destruct (String.eqb_spec input "") as [->|Hne];
      simpl in Hstep; injection Hstep as <- <-; simpl in *.
    + left; auto.
    + congruence.
  - (* KeyDown *)
    unfold onKeyDown in Hstep.
    destruct (String.eqb key "ArrowUp" && negb (activeSuggestion st =? 0)%Z);
      [injection Hstep as <- <-; simpl in *; congruence|].
    destruct (String.eqb key "ArrowDown" &&
              (activeSuggestion st <? Z.of_nat (length (suggestions st)) - 1)%Z);
      [injection Hstep as <- <-; simpl in *; congruence|].
    destruct (String.eqb_spec key "Escape") as [->|Hesc].
    + injection Hstep as <- <-; right; left; auto.
    + destruct (String.eqb_spec key "Enter") as [->|Hent]; simpl in Hstep.
      * destruct (match v with
                  | IndexTsx => true
                  | PromiseBased =>
                      negb (jsval_strict_eq (value st) (JStr "")) &&
                      (0 <? Z.of_nat (length (suggestions st)))%Z
                  end);
          [|injection Hstep as <- <-; simpl in *; congruence].
        unfold commitActive in Hstep.
        destruct (js_index (suggestions st) (activeSuggestion st)) as [item|];
          simpl in Hstep; injection Hstep as <- <-.
        -- right; right; left; exists item; split; [left; reflexivity|].
           split; [reflexivity|]; unfold callback; now destruct has_cb.
        -- right; right; right; split; [reflexivity|].
           intros item [H|[]]; discriminate.
      * injection Hstep as <- <-; simpl in *; congruence.
  - (* ClickItem *)
    rewrite Hvis in Hstep; destruct (nth_error (suggestions st) i) as [item|];
      [|discriminate].
    simpl in Hstep; injection Hstep as <- <-.
    right; right; left; exists item; split; [right; now exists i|].
    split; [reflexivity|]; unfold callback; now destruct has_cb.
  - (* HoverItem *)
    rewrite Hvis in Hstep; destruct (nth_error (suggestions st) i);
      [|discriminate].
    simpl in Hstep; injection Hstep as <- <-; simpl in *; congruence.
  - (* MouseDownOutside *)
    injection Hstep as <- <-; right; right; right; split; [reflexivity|].
    intros item [].
  - (* TimerFires *)
    destruct (pending st) as [|q rest]; [discriminate|].
    unfold timerCallback in Hstep.
    destruct (filterData filterField data q); [|destruct v];
      simpl in Hstep; injection Hstep as <- <-; simpl in *; congruence.
Qed.

(** C9 (amended): when computing the filtered subset throws, the elapsed
    timer leaves the input text, the visibility flag, the suggestions and
    the cursor as they were (only the timer is consumed) and calls no host
    callback. In index.tsx the exception escapes the timer callback as an
    uncaught error; in the Promise-based version the filter promise is
    rejected and the [.catch] handler rethrows, which ends as an unhandled
    rejection. Neither reaches a render-time error boundary. *)
Theorem filter_error_leaves_state (v : variant) (st : state T) (q : string)
    (rest : list string) (e : jserr) :
  pending st = q :: rest ->
  filterData filterField data q = Err e ->
  step T filterField same_item data has_cb v st TimerFires
    = Some (mkState (value st) (showSuggestions st) (suggestions st)
              (activeSuggestion st) rest,
            match v with
            | IndexTsx => [UncaughtError e]
            | PromiseBased => [UnhandledRejection (ErrorOf e)]
            end).
Proof.
  intros Hp Hf; unfold step, timerCallback; rewrite Hp, Hf.
  destruct v; reflexivity.
Qed.

End Keys.

(** ** The highlighter *)

Lemma is_regex_meta_dot : is_regex_meta (byte ".") = true.
Proof. reflexivity. Qed.

Lemma compile_no_meta (q : list Z) :
  forallb (fun c => negb (is_regex_meta c)) q = true ->
  compile q = Some (lits q).
Proof.
  induction q as [|c q IH]; simpl; [reflexivity|].
  rewrite andb_true_iff, negb_true_iff; intros [Hc Hq]; rewrite (IH Hq).
  destruct (Z.eqb_spec c (byte ".")) as [->|_].
  - now rewrite is_regex_meta_dot in Hc.
  - now rewrite Hc.
Qed.

Lemma match_at_lits (q s : list Z) : match_at (lits q) s = rx_prefix q s.
Proof.
  revert s; induction q as [|a q IH]; intros [|b s]; simpl; try reflexivity.
  now rewrite IH.
Qed.

Lemma regex_test_lits (q s : list Z) : regex_test (lits q) s = rx_contains s q.
Proof.
  unfold regex_test, rx_contains; induction (suffixes s) as [|x xs IH]; simpl;
    [reflexivity|].
  now rewrite match_at_lits, IH.
Qed.

Lemma length_lits (q : list Z) : length (lits q) = length q.
Proof. apply length_map. Qed.

Lemma replace_global_lits (q rep s : list Z) (k : nat) :
  replace_global (lits q) rep s k = ci_replace_all q rep s k.
Proof.
  revert k; induction s as [|c s IH]; intros [|k]; simpl; try reflexivity.
  - rewrite match_at_lits; destruct q; reflexivity.
  - rewrite match_at_lits; destruct (rx_prefix q (c :: s)); destruct q;
      simpl; rewrite ?IH, ?length_lits; reflexivity.
  - apply IH.
Qed.

(** C7 (amended): for a query without regular-expression metacharacters,
    the highlighter renders the plain text when the query does not occur in
    it up to case, and otherwise renders markup in which every leftmost
    non-overlapping occurrence of the query, up to case, is replaced by the
    emphasis marker wrapping the query as typed (not the matched text); the
    text around the occurrences is kept. Code units are equal up to case
    when their [canonicalize] images are, as for a case-insensitive
    regular expression. *)
Theorem highlight_literal_query (value q : string) :
  forallb (fun c => negb (is_regex_meta c)) (units q) = true ->
  HighlightSearchValue value q
    = Some (if rx_contains (units value) (units q)
            then InnerHtml (ci_replace_all (units q) (highlight_span q) (units value) 0)
            else PlainText value).
Proof.
  intros H; unfold HighlightSearchValue; rewrite (compile_no_meta (units q) H).
  now rewrite regex_test_lits, replace_global_lits.
Qed.

(** C7 (counterexample): on "banana" with query "an" both occurrences are
    wrapped, not only the first; on "Onix" with query "on" the matched "On"
    is replaced by the query "on". *)
Lemma highlight_not_first_match_only :
  HighlightSearchValue "banana" "an"
    = Some (InnerHtml (units "b" ++ highlight_span "an" ++ highlight_span "an"
                       ++ units "a")) /\
  HighlightSearchValue "banana" "an"
    <> Some (InnerHtml (units "b" ++ highlight_span "an" ++ units "ana")) /\
  HighlightSearchValue "Onix" "on"
    = Some (InnerHtml (highlight_span "on" ++ units "ix")).
Proof.
  split; [vm_compute; reflexivity|]; split; [vm_compute; congruence|].
  vm_compute; reflexivity.
Qed.

(** ** Counterexamples and witnesses of the state-machine claims *)

(** C5 (counterexample): in the Promise-based version, typing "o" and
    deleting it before the delay leaves a visible list ["onix"] with
    cursor 0 and an empty input; Enter then commits nothing: the list stays
    visible and the host callback is not called. *)
Lemma enter_no_commit_on_empty_text :
  demo_run PromiseBased [Change "o"; Change ""; TimerFires]
    = Some (mkState (JStr "") true ["onix"] 0%Z [], []) /\
  demo_step PromiseBased (mkState (JStr "") true ["onix"] 0%Z [])
    (KeyDown "Enter")
    = Some (mkState (JStr "") true ["onix"] 0%Z [], []).
Proof. split; reflexivity. Qed.

Lemma commit_active_or_clicked_witness :
  demo_step PromiseBased (mkState (JStr "on") true ["onix"] 0%Z [])
    (KeyDown "Enter")
    = Some (committed string JStr (mkState (JStr "on") true ["onix"] 0%Z []) "onix",
            callback string true "onix") /\
  demo_step PromiseBased (mkState (JStr "on") true ["onix"] 0%Z []) (ClickItem 0)
    = Some (committed string JStr (mkState (JStr "on") true ["onix"] 0%Z []) "onix",
            callback string true "onix").
Proof.
  destruct (commit_active_or_clicked string JStr String.eqb pokemon true
              PromiseBased (mkState (JStr "on") true ["onix"] 0%Z [])) as [H1 H2].
  split.
  - apply H1; [reflexivity | right; discriminate].
  - apply H2; reflexivity.
Defined.

(** C8 (counterexample): Enter on a visible list hides it, but changes the
    input text from "on" to "onix" and calls the host callback. *)
Lemma enter_hides_and_changes_text :
  demo_step IndexTsx (mkState (JStr "on") true ["onix"] 0%Z []) (KeyDown "Enter")
    = Some (mkState (JStr "onix") false ["onix"] 0%Z [], [Called "onix"]) /\
  demo_step PromiseBased (mkState (JStr "on") true ["onix"] 0%Z []) (KeyDown "Enter")
    = Some (mkState (JStr "onix") false ["onix"] 0%Z [], [Called "onix"]).
Proof. split; reflexivity. Qed.

Lemma hide_transitions_witness :
  let st := mkState (JStr "on") true ["onix"] 0%Z [] in
  (MouseDownOutside = Change "" /\ JStr "on" = JStr "" /\ @nil (report string) = []) \/
  (MouseDownOutside = KeyDown "Escape" /\ JStr "on" = JStr "" /\
     @nil (report string) = []) \/
  (exists item, (MouseDownOutside = KeyDown "Enter" \/
                 exists i, MouseDownOutside = ClickItem i) /\
     JStr "on" = JStr item /\ @nil (report string) = callback string true item) \/
  (JStr "on" = value st /\ forall item, ~ In (Called item) (@nil (report string))).
Proof.
  intros st.
  destruct (hide_transitions string JStr String.eqb pokemon true IndexTsx st)
    as (_ & _ & H).
  apply (H MouseDownOutside (mkState (JStr "on") false ["onix"] 0%Z [])); reflexivity.
Defined.

(** C9 (counterexample): with an item whose field is the number 25, the
    filter for "o" throws a TypeError. The state is left as it was, but the
    error ends as an unhandled rejection (Promise-based version) or an
    uncaught error of the timer callback (index.tsx); it is not delivered to
    an error boundary. *)
Lemma filter_error_not_at_boundary :
  mixed_run PromiseBased [Change "o"; TimerFires]
    = Some (mkState (JStr "o") false [] 0%Z [],
            [UnhandledRejection (ErrorOf TypeError)]) /\
  mixed_run IndexTsx [Change "o"; TimerFires]
    = Some (mkState (JStr "o") false [] 0%Z [], [UncaughtError TypeError]) /\
  (forall e, ~ In (ErrorBoundary e) [@UnhandledRejection jsval (ErrorOf TypeError)]) /\
  (forall e, ~ In (ErrorBoundary e) [@UncaughtError jsval TypeError]).
Proof.
  split; [reflexivity|]; split; [reflexivity|].
  split; intros e [H|[]]; discriminate.
Qed.

Lemma filter_error_leaves_state_witness :
  step jsval (fun x => x) jsval_strict_eq mixed_data true PromiseBased
    (mkState (JStr "o") false [] 0%Z ["o"]) TimerFires
    = Some (mkState (JStr "o") false [] 0%Z [],
            [UnhandledRejection (ErrorOf TypeError)]).
Proof.
  apply (filter_error_leaves_state jsval (fun x => x) jsval_strict_eq mixed_data
           true PromiseBased (mkState (JStr "o") false [] 0%Z ["o"]) "o" []
           TypeError); reflexivity.
Defined.

Lemma promise_enter_needs_text_witness :
  demo_step PromiseBased (mkState (JStr "") true ["onix"] 0%Z []) (KeyDown "Enter")
    = Some (mkState (JStr "") true ["onix"] 0%Z [], []).
Proof.
  apply (promise_enter_needs_text string JStr String.eqb pokemon true).
  left; reflexivity.
Defined.

Lemma highlight_literal_query_witness :
  HighlightSearchValue "Åland Islands" "å"
    = Some (if rx_contains (units "Åland Islands") (units "å")
            then InnerHtml (ci_replace_all (units "å") (highlight_span "å")
                              (units "Åland Islands") 0)
            else PlainText "Åland Islands").
Proof. apply highlight_literal_query; vm_compute; reflexivity. Defined.

(** * Further properties of the code *)

(** ** The filter: failures and refinement *)

(** The filter throws exactly when some item's field is not a string, and
    then always with a TypeError, whatever the query. *)
Theorem filterData_error_iff {T : Type} (f : T -> jsval) (L : list T) (q : string) :
  (forall e, filterData f L q = Err e -> e = TypeError) /\
  ((exists e, filterData f L q = Err e) <->
   exists x, In x L /\ forall s, f x <> JStr s).
Proof.
  unfold filterData; induction L as [|x L [IH1 IH2]]; simpl.
  - split; [discriminate|]. split; [intros [e H]; discriminate | intros (x & [] & _)].
  - destruct (f x) as [s|z|] eqn:Hf; simpl.
    + destruct (js_filter _ L) as [r|e'] eqn:Hr.
      * split; [discriminate|]. split; [intros [e H]; discriminate|].
        intros (y & [<-|Hy] & Hn); [exfalso; exact (Hn s Hf)|].
        destruct (proj2 IH2 (ex_intro _ y (conj Hy Hn))) as [e H]; discriminate.
      * split; [intros e H; injection H as <-; now apply IH1|].
        split; [intros _|intros _; now exists e'].
        destruct (proj1 IH2 (ex_intro _ e' eq_refl)) as (y & Hy & Hn).
        exists y; split; [now right | exact Hn].
    + split; [intros e H; now injection H|].
      split; [intros _; exists x; split; [now left | intros s; rewrite Hf; discriminate]
             |intros _; now exists TypeError].
    + split; [intros e H; now injection H|].
      split; [intros _; exists x; split; [now left | intros s; rewrite Hf; discriminate]
             |intros _; now exists TypeError].
Qed.

(** Typing more characters narrows the result: when the lowercased new
    query contains the lowercased old one, filtering the previous result
    with the new query gives the same list as filtering all the data with
    it. *)
Theorem filter_refines_previous {T : Type} (fs : T -> string) (L l1 : list T)
    (q1 q2 : string) :
  includes (toLowerCase (units q2)) (toLowerCase (units q1)) = true ->
  filterData (fun t => JStr (fs t)) L q1 = Ok l1 ->
  filterData (fun t => JStr (fs t)) l1 q2 = filterData (fun t => JStr (fs t)) L q2.
Proof.
  intros Hq H1; rewrite filterData_strings in H1; injection H1 as <-.
  rewrite !filterData_strings; f_equal.
  induction L as [|x L IH]; simpl; [reflexivity|].
  destruct (includes (toLowerCase (units (fs x))) (toLowerCase (units q1))) eqn:E1;
    simpl.
  - destruct (includes (toLowerCase (units (fs x))) (toLowerCase (units q2)));
      now rewrite IH.
  - destruct (includes (toLowerCase (units (fs x))) (toLowerCase (units q2))) eqn:E2;
      [|exact IH].
    rewrite (includes_trans _ _ _ E2 Hq) in E1; discriminate.
Qed.

(** On text whose lowercasing goes code point by code point (no capital
    sigma, no U+0130), the filter returns exactly the items whose field
    value contains the query up to case, in the order of [L]. *)
Theorem filter_case_insensitive {T : Type} (fs : T -> string) (L : list T)
    (q : string) :
  context_free q = true ->
  (forall t, In t L -> context_free (fs t) = true) ->
  filterData (fun t => JStr (fs t)) L q = Ok (spec_filter fs L q).
Proof.
  intros Hq HL; rewrite filterData_strings; unfold spec_filter; f_equal.
  apply filter_ext_in; intros t Ht; apply includes_lower_ci; auto.
Qed.

(** ** The country page *)

Lemma push_countries_map (acc : list CountryData) (l : list Country) :
  push_countries acc l = (acc ++ map toCountryData l)%list.
Proof.
  revert acc; induction l as [|d l IH]; intros acc; simpl.
  - now rewrite app_nil_r.
  - now rewrite IH, <- app_assoc.
Qed.

(** The country page hands the component one [CountryData] per fetched
    country, in order ([[]] while [data] is [null]); searching it compares
    the typed text with the common name only, never the official name, and
    never throws. Where the query and the common names hold no capital
    sigma and no U+0130, this is containment up to case. *)
Theorem country_search (data : option (list Country)) (q : string) :
  countriesOf data = map toCountryData (match data with Some l => l | None => [] end) /\
  filterData countryField (countriesOf data) q
    = Ok (map toCountryData
            (List.filter (fun d => includes (toLowerCase (units (common (name d))))
                                            (toLowerCase (units q)))
               (match data with Some l => l | None => [] end))) /\
  (context_free q = true ->
   (forall d, In d (match data with Some l => l | None => [] end) ->
              context_free (common (name d)) = true) ->
   filterData countryField (countriesOf data) q
     = Ok (map toCountryData
             (List.filter (fun d => ci_contains (common (name d)) q)
                (match data with Some l => l | None => [] end)))).
Proof.
  assert (Hc : countriesOf data
               = map toCountryData (match data with Some l => l | None => [] end)).
  { destruct data as [[|d l]|]; simpl; try reflexivity.
    rewrite push_countries_map; reflexivity. }
  assert (Hs : filterData countryField (countriesOf data) q
    = Ok (map toCountryData
            (List.filter (fun d => includes (toLowerCase (units (common (name d))))
                                            (toLowerCase (units q)))
               (match data with Some l => l | None => [] end)))).
  { unfold countryField; rewrite Hc, (filterData_strings cd_name); f_equal.
    clear Hc.
    generalize (match data with Some l => l | None => [] end) as L; intros L.
    induction L as [|d L IH]; simpl; [reflexivity|].
    destruct (includes (toLowerCase (units (common (name d)))) (toLowerCase (units q)));
      simpl; rewrite IH; reflexivity. }
  split; [exact Hc|]; split; [exact Hs|].
  intros Hq Hn; rewrite Hs; f_equal; f_equal.
  apply filter_ext_in; intros d Hd; apply includes_lower_ci; auto.
Qed.

(** ** The component: cursor, rendering and invariants *)

Lemma js_filter_ok {T : Type} (p : T -> js_result bool) (l r : list T) :
  js_filter p l = Ok r ->
  r = List.filter (fun x => match p x with Ok b => b | Err _ => false end) l.
Proof.
  revert r; induction l as [|x l IH]; intros r; simpl.
  - now intros H; injection H as <-.
  - destruct (p x) as [b|e]; [|discriminate].
    destruct (js_filter p l) as [r'|e]; [|discriminate].
    intros H; injection H as <-; rewrite (IH r' eq_refl); now destruct b.
Qed.

Lemma filter_false {T : Type} (l : list T) : List.filter (fun _ => false) l = [].
Proof. induction l; simpl; auto. Qed.

Lemma run_events_app {T : Type} filterField same_item (data : list T) has_cb v st
    (e1 e2 : list event) :
  run_events T filterField same_item data has_cb v st (e1 ++ e2)
  = match run_events T filterField same_item data has_cb v st e1 with
    | None => None
    | Some (st1, o1) =>
        match run_events T filterField same_item data has_cb v st1 e2 with
        | None => None
        | Some (st2, o2) => Some (st2, (o1 ++ o2)%list)
        end
    end.
Proof.
  revert st; induction e1 as [|ev e1 IH]; intros st; simpl.
  - destruct (run_events _ _ _ _ _ v st e2) as [[st2 o2]|]; reflexivity.
  - destruct (step T filterField same_item data has_cb v st ev) as [[st1 o1]|];
      [|reflexivity].
    rewrite IH.
    destruct (run_events _ _ _ _ _ v st1 e1) as [[st2 o2]|]; [|reflexivity].
    destruct (run_events _ _ _ _ _ v st2 e2) as [[st3 o3]|]; [|reflexivity].
    now rewrite app_assoc.
Qed.

Section Extras.
Variable T : Type.
Variable filterField : T -> jsval.
Variable same_item : T -> T -> bool.
Variable data : list T.
Variable has_cb : bool.
(** [indexOf] compares by reference: every item is equal to itself. *)
Hypothesis same_item_refl : forall x, same_item x x = true.

Lemma indexOf_from_position (l : list T) (x : T) (n : Z) (i : nat) :
  nth_error l i = Some x ->
  (n <= js_indexOf_from T same_item l x n <= n + Z.of_nat i)%Z /\
  ((forall j y, (j < i)%nat -> nth_error l j = Some y -> same_item y x = false) ->
   js_indexOf_from T same_item l x n = (n + Z.of_nat i)%Z).
Proof.
  revert n i; induction l as [|y l IH]; intros n [|i] Hi; simpl in *;
    try discriminate.
  - injection Hi as ->; rewrite same_item_refl; split; [lia|]; intros _; lia.
  - destruct (same_item y x) eqn:Hyx.
    + split; [lia|]. intros Hno; rewrite (Hno 0%nat y) in Hyx; [discriminate|lia|reflexivity].
    + destruct (IH (n + 1)%Z i Hi) as [B E]; split; [lia|].
      intros Hno; rewrite E; [lia|].
      intros j z Hj Hz; apply (Hno (S j) z); [lia|exact Hz].
Qed.


(** Hovering the item rendered at position [i] sets the cursor to the first
    position holding that same item ([indexOf]): a position between 0 and
    [i], equal to [i] unless the same item occurs earlier in the list.
    Nothing else changes. *)
Theorem hover_sets_first_index (v : variant) (st : state T) (i : nat) (item : T) :
  showSuggestions st = true ->
  nth_error (suggestions st) i = Some item ->
  step T filterField same_item data has_cb v st (HoverItem i)
    = Some (mkState (value st) (showSuggestions st) (suggestions st)
              (js_indexOf T same_item (suggestions st) item) (pending st), []) /\
  (0 <= js_indexOf T same_item (suggestions st) item <= Z.of_nat i)%Z /\
  ((forall j y, (j < i)%nat -> nth_error (suggestions st) j = Some y ->
                same_item y item = false) ->
   js_indexOf T same_item (suggestions st) item = Z.of_nat i).
Proof.
  intros Hs Hn; unfold js_indexOf.
  destruct (indexOf_from_position (suggestions st) item 0 i Hn) as [B E].
  split; [unfold step; rewrite Hs, Hn; destruct st; simpl in *; subst; reflexivity|].
  split; [lia|]. intros Hno; rewrite (E Hno); lia.
Qed.

(** The rendered list: nothing while hidden; the "No results found" row when
    visible with no suggestion; otherwise one row per suggestion, in order.
    When no item occurs twice in the list, the row at position [j] carries
    the "active" class exactly when [j] is the cursor (so no row does when
    the cursor is outside the list). *)
Theorem renderList_rows (st : state T) :
  (showSuggestions st = false -> renderList same_item st = ListHidden) /\
  (showSuggestions st = true -> suggestions st = [] ->
   renderList same_item st = NoResults) /\
  (showSuggestions st = true -> suggestions st <> [] ->
   (forall j k y z, nth_error (suggestions st) j = Some y ->
      nth_error (suggestions st) k = Some z -> same_item y z = true -> j = k) ->
   exists rows, renderList same_item st = Rows rows /\
     map fst rows = suggestions st /\
     forall j y b, nth_error rows j = Some (y, b) ->
       b = Z.eqb (Z.of_nat j) (activeSuggestion st)).
Proof.
  unfold renderList; split; [intros ->; reflexivity|].
  split; [intros -> ->; reflexivity|].
  intros Hs Hne Hdist; rewrite Hs.
  exists (map (fun s => (s, Z.eqb (js_indexOf T same_item (suggestions st) s)
                                   (activeSuggestion st))) (suggestions st)).
  split; [destruct (suggestions st); [contradiction|reflexivity]|].
  split; [rewrite map_map; apply map_id|].
  intros j y b Hj; rewrite nth_error_map in Hj.
  destruct (nth_error (suggestions st) j) as [x|] eqn:Hx; [|discriminate].
  injection Hj as <- <-; f_equal.
  destruct (indexOf_from_position (suggestions st) x 0 j Hx) as [_ E].
  unfold js_indexOf; rewrite E; [lia|].
  intros k z Hk Hz; destruct (same_item z x) eqn:Hzx; [|reflexivity].
  specialize (Hdist k j z x Hz Hx Hzx); lia.
Qed.

(** In every reachable state of both versions: the cursor is never
    negative, every pending filter timer was scheduled for a non-empty
    input, and the suggestions are an order-preserving selection of [data]
    (the result of some filter over it). *)
Theorem reachable_invariants (v : variant) (st : state T) :
  reachable T filterField same_item data has_cb v st ->
  (0 <= activeSuggestion st)%Z /\
  Forall (fun q => q <> "") (pending st) /\
  exists p : T -> bool, suggestions st = List.filter p data.
Proof.
  induction 1 as [|st ev st' out _ (Ha & Hp & p & Hs) Hstep].
  - split; [simpl; lia|]; split; [constructor|].
    exists (fun _ => false); now rewrite filter_false.
  - destruct ev as [input|key|i|i| |]; simpl in Hstep.
    + unfold handleOnChange in Hstep.
      destruct (String.eqb_spec input "") as [E|E]; simpl in Hstep;
        injection Hstep as <- _; simpl.
      * split; [lia|]; split; [exact Hp|]; now exists p.
      * split; [lia|]; split; [apply Forall_app; split; [exact Hp|auto]|].
        now exists p.
    + unfold onKeyDown in Hstep.
      destruct (String.eqb key "ArrowUp" && negb (activeSuggestion st =? 0)%Z)
        eqn:Hup; simpl in Hstep.
      { injection Hstep as <- _; simpl.
        apply andb_true_iff in Hup as [_ Hup]; apply negb_true_iff, Z.eqb_neq in Hup.
        split; [lia|]; split; [exact Hp|]; now exists p. }
      destruct (String.eqb key "ArrowDown" &&
                (activeSuggestion st <? Z.of_nat (length (suggestions st)) - 1)%Z);
        simpl in Hstep.
      { injection Hstep as <- _; simpl.
        split; [lia|]; split; [exact Hp|]; now exists p. }
      destruct (String.eqb key "Escape"); simpl in Hstep.
      { injection Hstep as <- _; simpl.
        split; [lia|]; split; [exact Hp|]; now exists p. }
      destruct (String.eqb key "Enter" && _); simpl in Hstep;
        [unfold commitActive in Hstep;
         destruct (js_index (suggestions st) (activeSuggestion st)); simpl in Hstep|];
        injection Hstep as <- _; simpl;
        (split; [lia|]; split; [exact Hp|]; now exists p).
    + destruct (showSuggestions st); [|discriminate].
      destruct (nth_error (suggestions st) i); [|discriminate].
      simpl in Hstep; injection Hstep as <- _; simpl.
      split; [lia|]; split; [exact Hp|]; now exists p.
    + destruct (showSuggestions st); [|discriminate].
      destruct (nth_error (suggestions st) i) as [item|] eqn:Hn; [|discriminate].
      simpl in Hstep; injection Hstep as <- _; simpl.
      destruct (indexOf_from_position (suggestions st) item 0 i Hn) as [B _].
      split; [unfold js_indexOf; lia|]; split; [exact Hp|]; now exists p.
    + injection Hstep as <- _; simpl.
      split; [lia|]; split; [exact Hp|]; now exists p.
    + destruct (pending st) as [|q rest]; [discriminate|].
      inversion Hp as [|? ? _ Hrest]; subst.
      unfold timerCallback in Hstep.
      destruct (filterData filterField data q) as [l|e] eqn:Hf;
        [|destruct v]; simpl in Hstep; injection Hstep as <- _; simpl;
        (split; [lia|]; split; [exact Hrest|]).
      * unfold filterData in Hf; apply js_filter_ok in Hf; eexists; exact Hf.
      * now exists p.
      * now exists p.
Qed.

End Extras.

Section Sequences.
Variable T : Type.
Variable filterField : T -> jsval.
Variable same_item : T -> T -> bool.
Variable data : list T.
Variable has_cb : bool.

(** Escape does not empty [suggestions] nor reset the cursor. A following
    Enter is ignored by the Promise-based version (its input text is now
    empty), but index.tsx still commits the hidden active suggestion. *)
Theorem escape_then_enter (st : state T) :
  run_events T filterField same_item data has_cb PromiseBased st
    [KeyDown "Escape"; KeyDown "Enter"]
    = Some (mkState (JStr "") false (suggestions st) (activeSuggestion st)
              (pending st), []) /\
  (forall item, js_index (suggestions st) (activeSuggestion st) = Some item ->
   run_events T filterField same_item data has_cb IndexTsx st
     [KeyDown "Escape"; KeyDown "Enter"]
     = Some (mkState (filterField item) false (suggestions st)
               (activeSuggestion st) (pending st), callback T has_cb item)).
Proof.
  split.
  - reflexivity.
  - intros item Hi; simpl; unfold commitActive; simpl; rewrite Hi; simpl.
    unfold callback; destruct has_cb; reflexivity.
Qed.

Lemma changes_run (v : variant) (st : state T) (qs : list string) :
  qs <> [] -> Forall (fun q => q <> "") qs ->
  run_events T filterField same_item data has_cb v st (map Change qs)
    = Some (mkState (JStr (last qs "")) (showSuggestions st) (suggestions st)
              0%Z (pending st ++ qs), []).
Proof.
  revert st; induction qs as [|q qs IH]; intros st Hne Hall; [contradiction|].
  inversion Hall as [|? ? Hq Hqs]; subst.
  simpl; unfold handleOnChange.
  destruct (String.eqb_spec q "") as [E|_]; [contradiction|]; simpl.
  destruct qs as [|q' qs'].
  - simpl; reflexivity.
  - rewrite IH by (discriminate || exact Hqs); simpl.
    now rewrite <- app_assoc.
Qed.

Lemma timer_step (v : variant) (st : state T) (q : string) (rest : list string)
    (r : list T) :
  pending st = q :: rest -> filterData filterField data q = Ok r ->
  step T filterField same_item data has_cb v st TimerFires
    = Some (mkState (value st) true r (activeSuggestion st) rest, []).
Proof. intros Hp Hr; unfold step, timerCallback; rewrite Hp, Hr; reflexivity. Qed.

Lemma timers_run (v : variant) (st : state T) (ps : list string) (l : list T) :
  pending st = ps -> ps <> [] ->
  Forall (fun q => exists r, filterData filterField data q = Ok r) ps ->
  filterData filterField data (last ps "") = Ok l ->
  run_events T filterField same_item data has_cb v st
    (repeat TimerFires (length ps))
    = Some (mkState (value st) true l (activeSuggestion st) [], []).
Proof.
  revert st; induction ps as [|q ps IH]; intros st Hp Hne Hall Hl; [contradiction|].
  inversion Hall as [|? ? [r Hr] Hrest]; subst.
  change (repeat TimerFires (length (q :: ps)))
    with (TimerFires :: repeat TimerFires (length ps)).
  cbn [run_events]; rewrite (timer_step v st q ps r Hp Hr).
  destruct ps as [|q' ps'].
  - simpl in Hl; rewrite Hr in Hl; injection Hl as ->; reflexivity.
  - rewrite (IH (mkState (value st) true r (activeSuggestion st) (q' :: ps')));
      [reflexivity | reflexivity | discriminate | exact Hrest | exact Hl].
Qed.

(** Typing several non-empty texts in a row, from a state with no pending
    timer, and letting all their timers elapse: when every filter succeeds,
    the final state shows the result for the last text typed, with that
    text as input and the cursor at 0, and nothing is reported. *)
Theorem last_keystroke_wins (v : variant) (st : state T) (qs : list string)
    (l : list T) :
  pending st = [] -> qs <> [] ->
  Forall (fun q => q <> "") qs ->
  Forall (fun q => exists r, filterData filterField data q = Ok r) qs ->
  filterData filterField data (last qs "") = Ok l ->
  run_events T filterField same_item data has_cb v st
    (map Change qs ++ repeat TimerFires (length qs))
    = Some (mkState (JStr (last qs "")) true l 0%Z [], []).
Proof.
  intros Hp Hne Hall Hok Hl.
  rewrite run_events_app, changes_run by assumption.
  rewrite (timers_run v _ qs l) by (simpl; rewrite ?Hp; reflexivity || assumption).
  reflexivity.
Qed.

End Sequences.

(** ** The data hook *)

(** One request completing from the initial state clears [isLoading] and
    sets exactly one of [data] and [error]: [data] when the response is ok
    and its body parses, [error] otherwise ("Network error!" when the
    response is not ok). *)
Theorem fetch_first_completion {A E : Type} (o : fetchOutcome A E) :
  let st := fetchData_complete (@fetch_initial A E) o in
  isLoading st = false /\
  (forall d, fetched st = Some d <-> o = Responded true (inl d)) /\
  (error st = None <-> exists d, o = Responded true (inl d)) /\
  (forall j, o = Responded false j -> error st = Some NetworkError).
Proof.
  intros st; subst st.
  destruct o as [e|[|] [d|e]]; simpl; repeat split; intros;
    try discriminate; try congruence; eauto;
    match goal with H : exists _, _ |- _ => destruct H; discriminate end.
Qed.

(** Later requests (the effect runs again when [url] changes) never set
    [isLoading] back to [true] and never clear [data] or [error]: after a
    successful request followed by a failed one, both are set. *)
Theorem fetch_never_resets {A E : Type} (st : FetchData A E)
    (os : list (fetchOutcome A E)) :
  os <> [] ->
  isLoading (fetch_completions st os) = false /\
  (fetched st <> None -> fetched (fetch_completions st os) <> None) /\
  (error st <> None -> error (fetch_completions st os) <> None).
Proof.
  unfold fetch_completions; revert st.
  induction os as [|o os IH]; intros st Hne; [contradiction|]; simpl.
  assert (Hstep : isLoading (fetchData_complete st o) = false /\
                  (fetched st <> None -> fetched (fetchData_complete st o) <> None) /\
                  (error st <> None -> error (fetchData_complete st o) <> None)).
  { destruct o as [e|[|] [d|e]]; simpl; repeat split; intros; congruence. }
  destruct os as [|o' os'].
  - exact Hstep.
  - destruct Hstep as (_ & Hd & He).
    destruct (IH (fetchData_complete st o) ltac:(discriminate)) as (L & D & Er).
    split; [exact L|]; split; intros H; [apply D, Hd, H | apply Er, He, H].
Qed.

(** ** Witnesses of the further properties *)

Lemma filter_refines_previous_witness :
  filterData JStr ["bulbasaur"; "abra"] "ab" = filterData JStr pokemon "ab".
Proof.
  apply (filter_refines_previous (fun s => s) pokemon ["bulbasaur"; "abra"] "a" "ab");
    reflexivity.
Defined.


(** The same item twice: hovering the second copy moves the cursor to the
    first one. *)
Lemma hover_sets_first_index_witness :
  demo_step IndexTsx (mkState (JStr "o") true ["onix"; "abra"; "onix"] 0%Z [])
    (HoverItem 2)
    = Some (mkState (JStr "o") true ["onix"; "abra"; "onix"]
              (js_indexOf string String.eqb ["onix"; "abra"; "onix"] "onix") [], []) /\
  (0 <= js_indexOf string String.eqb ["onix"; "abra"; "onix"] "onix" <= 2)%Z.
Proof.
  destruct (hover_sets_first_index string JStr String.eqb pokemon true
              String.eqb_refl IndexTsx
              (mkState (JStr "o") true ["onix"; "abra"; "onix"] 0%Z []) 2 "onix")
    as (H1 & H2 & _); [reflexivity | reflexivity |].
  split; [exact H1 | exact H2].
Defined.

Lemma renderList_rows_witness :
  exists rows,
    renderList String.eqb (mkState (JStr "a") true ["bulbasaur"; "abra"] 1%Z []) = Rows rows /\
    map fst rows = ["bulbasaur"; "abra"] /\
    forall j y b, nth_error rows j = Some (y, b) -> b = Z.eqb (Z.of_nat j) 1%Z.
Proof.
  destruct (renderList_rows string String.eqb String.eqb_refl
              (mkState (JStr "a") true ["bulbasaur"; "abra"] 1%Z [])) as (_ & _ & H).
  apply H; [reflexivity | discriminate |].
  intros [|[|[|j]]] [|[|[|k]]] y z Hy Hz Hyz; simpl in *;
    try discriminate; try reflexivity;
    injection Hy as <-; injection Hz as <-; discriminate.
Defined.

Lemma reachable_invariants_witness :
  (0 <= 0)%Z /\ Forall (fun q => q <> "") ([] : list string) /\
  exists p : string -> bool, ["bulbasaur"; "abra"] = List.filter p pokemon.
Proof.
  apply (reachable_invariants string JStr String.eqb pokemon true String.eqb_refl
           IndexTsx (mkState (JStr "a") true ["bulbasaur"; "abra"] 0%Z [])).
  apply (reach_step string JStr String.eqb pokemon true IndexTsx
           (mkState (JStr "a") false [] 0%Z ["a"]) TimerFires _ []).
  - apply (reach_step string JStr String.eqb pokemon true IndexTsx
             (initial string) (Change "a") _ []).
    + apply reach_init.
    + reflexivity.
  - reflexivity.
Defined.

Lemma escape_then_enter_witness :
  demo_run PromiseBased [KeyDown "Escape"; KeyDown "Enter"]
    = Some (mkState (JStr "") false [] 0%Z [], []) /\
  run_events string JStr String.eqb pokemon true IndexTsx
    (mkState (JStr "on") true ["onix"] 0%Z []) [KeyDown "Escape"; KeyDown "Enter"]
    = Some (mkState (JStr "onix") false ["onix"] 0%Z [], callback string true "onix").
Proof.
  split.
  - apply (escape_then_enter string JStr String.eqb pokemon true (initial string)).
  - apply (escape_then_enter string JStr String.eqb pokemon true
             (mkState (JStr "on") true ["onix"] 0%Z [])); reflexivity.
Defined.

Lemma last_keystroke_wins_witness :
  demo_run PromiseBased [Change "a"; Change "ab"; TimerFires; TimerFires]
    = Some (mkState (JStr "ab") true ["abra"] 0%Z [], []).
Proof.
  apply (last_keystroke_wins string JStr String.eqb pokemon true PromiseBased
           (initial string) ["a"; "ab"] ["abra"]).
  - reflexivity.
  - discriminate.
  - repeat constructor; discriminate.
  - repeat constructor; eexists; reflexivity.
  - reflexivity.
Defined.

(** A successful request, then a failing one (for a new url). *)
Lemma fetch_never_resets_witness :
  let st := fetch_completions (@fetch_initial string string)
              [Responded true (inl "bulbasaur")] in
  isLoading (fetch_completions st [FetchRejected "offline"]) = false /\
  (fetched st <> None ->
   fetched (fetch_completions st [FetchRejected "offline"]) <> None) /\
  (error st <> None ->
   error (fetch_completions st [FetchRejected "offline"]) <> None).
Proof. intros st; apply fetch_never_resets; discriminate. Defined.

(** Country names with letters outside ASCII. *)
Lemma filter_case_insensitive_witness :
  filterData (fun t => JStr ((fun s : string => s) t))
    ["Åland Islands"; "Curaçao"; "Chad"] "å"
    = Ok (spec_filter (fun s : string => s) ["Åland Islands"; "Curaçao"; "Chad"] "å") /\
  spec_filter (fun s : string => s) ["Åland Islands"; "Curaçao"; "Chad"] "å"
    = ["Åland Islands"].
Proof.
  split.
  - apply (filter_case_insensitive (fun s : string => s)
             ["Åland Islands"; "Curaçao"; "Chad"] "å").
    + vm_compute; reflexivity.
    + intros t Ht; simpl in Ht; destruct Ht as [<-|[<-|[<-|[]]]];
        vm_compute; reflexivity.
  - vm_compute; reflexivity.
Defined.

Lemma country_search_witness :
  filterData countryField (countriesOf (Some [aland; curacao])) "Å"
    = Ok (map toCountryData
            (List.filter (fun d => ci_contains (common (name d)) "Å") [aland; curacao])) /\
  filterData countryField (countriesOf (Some [aland; curacao])) "ç"
    = Ok [toCountryData curacao].
Proof.
  split.
  - apply (proj2 (proj2 (country_search (Some [aland; curacao]) "Å"))).
    + vm_compute; reflexivity.
    + intros d Hd; simpl in Hd; destruct Hd as [<-|[<-|[]]]; vm_compute; reflexivity.
  - rewrite (proj1 (proj2 (country_search (Some [aland; curacao]) "ç"))).
    vm_compute; reflexivity.
Defined.
